(** * dds_top: multi-channel DDS datapath

    A cycle-accurate shallow embedding of the Verilog module [dds_top]
    (phase control -> N oscillators -> latency registers -> gain product
    -> output register).  Every [reg] of the module is a field of the state,
    one clock edge is the function [tick], and a w-bit vector is the
    integer in [0, 2^w) that its bits spell. *)

From Stdlib Require Import ZArith List Lia Bool.
Import ListNotations.
Open Scope Z_scope.

(** ** Bit vectors *)

Module Bits.

(** The low [w] bits of [x]: what a [w]-bit net keeps of a value. *)
Definition trunc (w x : Z) : Z := Z.land x (Z.ones w).

(** Indexed part select [x[lo +: w]]. *)
Definition slice (x lo w : Z) : Z := Z.land (Z.shiftr x lo) (Z.ones w).

(** Value of a [w]-bit vector declared [signed] (two's complement). *)
Definition signed (w x : Z) : Z :=
  if Z.testbit x (w - 1) then trunc w x - 2 ^ w else trunc w x.

(** Concatenation [{hi, lo}] where [lo] is [w] bits wide. *)
Definition concat (w hi lo : Z) : Z := Z.lor (Z.shiftl hi w) (trunc w lo).

End Bits.

(** ** latency_reg *)

Module LatencyReg.

(** Modelled from the spec: the module [latency_reg] (parameters [N], [B];
    ports [rstn], [clk], [din], [dout]) is instantiated by [dds_top] but its
    body is not among the sources.  The spec describes it as a fixed-depth
    shift-register delay whose registers clear to zero under the synchronous
    reset.  The state lists the [N] registers, the one fed by [din] first. *)
Definition t : Type := list Z.

Definition tick (N : nat) (B : Z) (rstn : bool) (din : Z) (r : t) : t :=
  if rstn then firstn N (Bits.trunc B din :: r) else repeat 0 N.

Definition dout (N : nat) (r : t) : Z := nth (N - 1) r 0.

End LatencyReg.

(** ** Instantiated blocks whose bodies are not given *)

(** [phase_ctrl] (ports [rstn], [clk], [dds_ctrl_o], [PINC_REG], [WE_REG]):
    any synchronous machine, its output a function of its state and of the
    current port values. *)
Class PhaseCtrl : Type := {
  phase_ctrl : Type;
  phase_ctrl_tick : bool -> Z -> bool -> phase_ctrl -> phase_ctrl;
  dds_ctrl_o : bool -> Z -> bool -> phase_ctrl -> Z
}.

(** [dds_compiler_0] (ports [aclk], [s_axis_phase_tvalid],
    [s_axis_phase_tdata], [m_axis_data_tdata]): a vendor core, any
    synchronous machine clocked by [aclk].  It has no reset port. *)
Class DdsCompiler : Type := {
  dds_compiler_0 : Type;
  dds_compiler_0_tick : bool -> Z -> dds_compiler_0 -> dds_compiler_0;
  m_axis_data_tdata : dds_compiler_0 -> Z
}.

(** ** dds_top *)

(** Replication of a generate block: [f i] builds instance [i]. *)
Fixpoint generate {A B : Type} (f : nat -> A -> B) (i : nat) (l : list A)
  : list B :=
  match l with
  | [] => []
  | a :: r => f i a :: generate f (S i) r
  end.

(** Packing of [w]-bit words into one bus, word [i] at bits [i*w +: w]. *)
Fixpoint bus (w : Z) (ws : list Z) : Z :=
  match ws with
  | [] => 0
  | x :: r => Bits.concat w (bus w r) x
  end.

(** Ports sampled at one clock edge.  [rstn] is active low: [false]
    asserts reset. *)
Record ports : Type := Ports {
  rstn : bool;
  PINC_REG : Z;
  GAIN_REG : Z;
  WE_REG : bool
}.

(** What the datapath reads at one clock edge: two ports and the wire
    [dds_ctrl_int] driven by [phase_ctrl_i]. *)
Record dp_in : Type := DpIn {
  d_rstn : bool;
  d_gain : Z;
  d_ctrl_int : Z
}.

(** What one iteration of [GEN_dds] reads at one clock edge: reset, the
    signed gain, and the oscillator's [tvalid] and [tdata]. *)
Record ch_in : Type := ChIn {
  c_rstn : bool;
  c_gain : Z;
  c_tvalid : bool;
  c_tdata : Z
}.

Definition gain (GAIN_REG : Z) : Z := Bits.signed 16 GAIN_REG.

(** The datapath inputs of one run with the control words of another. *)
Fixpoint with_ctrl_of (tr1 tr2 : list dp_in) : list dp_in :=
  match tr1, tr2 with
  | a :: r1, b :: r2 =>
      {| d_rstn := d_rstn a; d_gain := d_gain a; d_ctrl_int := d_ctrl_int b |}
      :: with_ctrl_of r1 r2
  | _, _ => []
  end.

Section Model.

Context {PC : PhaseCtrl} {DC : DdsCompiler}.

(** State of one iteration of [GEN_dds]. *)
Record channel : Type := Channel {
  dds_i : dds_compiler_0;
  dds_dout_latency_reg_i : LatencyReg.t;
  prod_real_r1 : Z;
  prod_imag_r1 : Z;
  prod_r1 : Z
}.

(** Registers of [dds_top] outside [phase_ctrl_i]. *)
Record datapath : Type := Datapath {
  dds_tvalid_r : bool;
  dds_ctrl_int_r : Z;
  GEN_dds : list channel
}.

Record dds_top : Type := DdsTop {
  phase_ctrl_i : phase_ctrl;
  regs : datapath
}.

(** *** Wires of one channel *)

Definition dds_dout (c : channel) : Z :=
  Bits.trunc 32 (m_axis_data_tdata (dds_i c)).

Definition dds_dout_la (c : channel) : Z :=
  Bits.trunc 32 (LatencyReg.dout 4 (dds_dout_latency_reg_i c)).

Definition prod_a_real (c : channel) : Z :=
  Bits.signed 16 (Bits.slice (dds_dout_la c) 0 16).

Definition prod_a_imag (c : channel) : Z :=
  Bits.signed 16 (Bits.slice (dds_dout_la c) 16 16).

Definition prod_real (g : Z) (c : channel) : Z :=
  Bits.trunc 32 (prod_a_real c * g).

Definition prod_imag (g : Z) (c : channel) : Z :=
  Bits.trunc 32 (prod_a_imag c * g).

Definition prod_real_q (c : channel) : Z := Bits.slice (prod_real_r1 c) 15 16.

Definition prod_imag_q (c : channel) : Z := Bits.slice (prod_imag_r1 c) 15 16.

Definition prod (c : channel) : Z :=
  Bits.concat 16 (prod_imag_q c) (prod_real_q c).

(** *** One clock edge *)

(** Channel [i]: the oscillator and the latency register advance, and the
    [always] block of the generate loop updates the product registers. *)
Definition channel_tick (x : ch_in) (c : channel) : channel :=
  {| dds_i := dds_compiler_0_tick (c_tvalid x) (c_tdata x) (dds_i c);
     dds_dout_latency_reg_i :=
       LatencyReg.tick 4 32 (c_rstn x) (dds_dout c) (dds_dout_latency_reg_i c);
     prod_real_r1 := if c_rstn x then prod_real (c_gain x) c else 0;
     prod_imag_r1 := if c_rstn x then prod_imag (c_gain x) c else 0;
     prod_r1 := if c_rstn x then prod c else 0 |}.

(** The connections of instance [i]: [dds_tvalid_r] and
    [dds_ctrl_int_r[i*72 +: 72]] to the oscillator, [gain = GAIN_REG]. *)
Definition ch_of (x : dp_in) (d : datapath) (i : nat) : ch_in :=
  {| c_rstn := d_rstn x;
     c_gain := gain (d_gain x);
     c_tvalid := dds_tvalid_r d;
     c_tdata := Bits.slice (dds_ctrl_int_r d) (Z.of_nat i * 72) 72 |}.

Definition datapath_tick (x : dp_in) (d : datapath) : datapath :=
  let N_DDS := Z.of_nat (length (GEN_dds d)) in
  {| dds_tvalid_r := if d_rstn x then true else false;
     dds_ctrl_int_r :=
       if d_rstn x then Bits.trunc (N_DDS * 72) (d_ctrl_int x) else 0;
     GEN_dds :=
       generate (fun i => channel_tick (ch_of x d i)) 0%nat (GEN_dds d) |}.

Definition dp_of (x : ports) (s : dds_top) : dp_in :=
  {| d_rstn := rstn x;
     d_gain := GAIN_REG x;
     d_ctrl_int :=
       dds_ctrl_o (rstn x) (PINC_REG x) (WE_REG x) (phase_ctrl_i s) |}.

Definition tick (x : ports) (s : dds_top) : dds_top :=
  {| phase_ctrl_i :=
       phase_ctrl_tick (rstn x) (PINC_REG x) (WE_REG x) (phase_ctrl_i s);
     regs := datapath_tick (dp_of x s) (regs s) |}.

(** Output port: [dds_dout_o[i*32 +: 32] = prod_r1[i]]. *)
Definition datapath_dout (d : datapath) : Z :=
  bus 32 (map prod_r1 (GEN_dds d)).

Definition dds_dout_o (s : dds_top) : Z := datapath_dout (regs s).

(** *** Runs: one list element per clock edge, first edge first *)

Fixpoint channel_run (xs : list ch_in) (c : channel) : channel :=
  match xs with
  | [] => c
  | x :: r => channel_run r (channel_tick x c)
  end.

Fixpoint datapath_run (xs : list dp_in) (d : datapath) : datapath :=
  match xs with
  | [] => d
  | x :: r => datapath_run r (datapath_tick x d)
  end.

Fixpoint run (xs : list ports) (s : dds_top) : dds_top :=
  match xs with
  | [] => s
  | x :: r => run r (tick x s)
  end.

(** The output frames seen after each clock edge of a run. *)
Fixpoint frames (xs : list ports) (s : dds_top) : list Z :=
  match xs with
  | [] => []
  | x :: r => dds_dout_o (tick x s) :: frames r (tick x s)
  end.

(** What the datapath reads along a run of the whole module. *)
Fixpoint dp_trace (xs : list ports) (s : dds_top) : list dp_in :=
  match xs with
  | [] => []
  | x :: r => dp_of x s :: dp_trace r (tick x s)
  end.

(** What channel [i] reads along a run of the datapath. *)
Fixpoint ch_trace (i : nat) (xs : list dp_in) (d : datapath) : list ch_in :=
  match xs with
  | [] => []
  | x :: r => ch_of x d i :: ch_trace i r (datapath_tick x d)
  end.

(** What channel [i] reads along a run of the whole module. *)
Definition delivered (i : nat) (xs : list ports) (s : dds_top) : list ch_in :=
  ch_trace i (dp_trace xs s) (regs s).

Fixpoint dds_compiler_0_run (xs : list (bool * Z)) (o : dds_compiler_0)
  : dds_compiler_0 :=
  match xs with
  | [] => o
  | (tvalid, tdata) :: r =>
      dds_compiler_0_run r (dds_compiler_0_tick tvalid tdata o)
  end.

(** The comment [Latency: 10] on the oscillator instance: the data output
    at a cycle does not depend on what the phase input carried during the
    [L - 1] preceding cycles. *)
Definition dds_latency (L : nat) : Prop :=
  forall (o : dds_compiler_0) (xs ys : list (bool * Z)),
    length xs = length ys ->
    (length xs < L)%nat ->
    m_axis_data_tdata (dds_compiler_0_run xs o)
    = m_axis_data_tdata (dds_compiler_0_run ys o).

(** Two oscillator states whose outputs agree for the next [m] cycles,
    whatever each is fed. *)
Definition osc_agree (m : nat) (o1 o2 : dds_compiler_0) : Prop :=
  forall xs ys : list (bool * Z),
    length xs = length ys -> (length xs <= m)%nat ->
    m_axis_data_tdata (dds_compiler_0_run xs o1)
    = m_axis_data_tdata (dds_compiler_0_run ys o2).

(** Two states of a channel that a difference upstream has not yet
    reached: with [k] edges to go before the output register may differ,
    the registers within [k] stages of the output agree. *)
Definition ch_agree (k : nat) (c1 c2 : channel) : Prop :=
  prod_r1 c1 = prod_r1 c2
  /\ ((1 <= k)%nat ->
      prod_real_r1 c1 = prod_real_r1 c2 /\ prod_imag_r1 c1 = prod_imag_r1 c2)
  /\ (forall j, (j < 4)%nat -> (5 <= j + k)%nat ->
      nth j (dds_dout_latency_reg_i c1) 0 = nth j (dds_dout_latency_reg_i c2) 0)
  /\ ((6 <= k)%nat -> osc_agree (k - 6) (dds_i c1) (dds_i c2)).

(** A channel whose registers within [k] stages of the output hold zero:
    with [k] edges to go before the output register may leave zero. *)
Definition ch_quiet (k : nat) (c : channel) : Prop :=
  prod_r1 c = 0
  /\ ((1 <= k)%nat -> prod_real_r1 c = 0 /\ prod_imag_r1 c = 0)
  /\ (forall j, (j < 4)%nat -> (5 <= j + k)%nat ->
      nth j (dds_dout_latency_reg_i c) 0 = 0).

(** Every register that [rstn] reaches holds zero. *)
Definition channel_cleared (c : channel) : Prop :=
  dds_dout_latency_reg_i c = repeat 0 4
  /\ prod_real_r1 c = 0 /\ prod_imag_r1 c = 0 /\ prod_r1 c = 0.

Definition cleared (s : dds_top) : Prop :=
  dds_tvalid_r (regs s) = false
  /\ dds_ctrl_int_r (regs s) = 0
  /\ Forall channel_cleared (GEN_dds (regs s)).

End Model.

(** The gain contract in the spec's words:
    [(int32(sample) * int32(gain)) >> 15], truncated to 16 bits. *)
Definition q15_scale (sample g : Z) : Z :=
  Bits.trunc 16 (Z.shiftr (sample * g) 15).

(** ** A reference instance of the two instantiated blocks *)

Module Ref.

(** Modelled from the spec: the body of [phase_ctrl] is not among the
    sources.  The spec gives it one holding register that is zero at reset,
    captures [PINC_REG] when [WE_REG] is set and is held otherwise, and one
    control word per channel; here every channel gets the held increment in
    the low 32 bits of its 72-bit word. *)
Definition pc_tick (rstn : bool) (PINC_REG : Z) (WE_REG : bool) (held : Z) : Z :=
  if rstn then (if WE_REG then Bits.trunc 32 PINC_REG else held) else 0.

Definition pc_out (N : nat) (_ : bool) (_ : Z) (_ : bool) (held : Z) : Z :=
  bus 72 (repeat (Bits.trunc 32 held) N).

Definition PC (N : nat) : PhaseCtrl :=
  {| phase_ctrl := Z; phase_ctrl_tick := pc_tick; dds_ctrl_o := pc_out N |}.

(** Modelled from the spec: the vendor core [dds_compiler_0] is not among
    the sources.  The spec gives each oscillator a 32-bit phase accumulator
    advanced on every valid cycle by the increment, wrapping modulo one
    turn, a phase-to-amplitude map left to the implementation (here a
    16-entry table of 16-bit cosine values), and a latency of 10 cycles
    (the accumulator and nine output registers). *)
Record osc : Type := Osc {
  acc : Z;
  pipe : list Z
}.

Definition cos_table : list Z :=
  [32767; 30273; 23170; 12539; 0; -12539; -23170; -30273;
   -32767; -30273; -23170; -12539; 0; 12539; 23170; 30273].

Definition cos16 (phase : Z) : Z :=
  nth (Z.to_nat (Bits.slice phase 28 4)) cos_table 0.

(** Sine is cosine a quarter turn earlier. *)
Definition sin16 (phase : Z) : Z := cos16 (phase - 2 ^ 30).

(** [{imag[15:0], real[15:0]}] of the sample at [phase]. *)
Definition amplitude (phase : Z) : Z :=
  Bits.concat 16 (Bits.trunc 16 (sin16 phase)) (cos16 phase).

Definition osc_tick (tvalid : bool) (tdata : Z) (o : osc) : osc :=
  {| acc := if tvalid then Bits.trunc 32 (acc o + Bits.slice tdata 0 32)
            else acc o;
     pipe := firstn 9 (amplitude (acc o) :: pipe o) |}.

Definition osc_out (o : osc) : Z := nth 8 (pipe o) 0.

Definition DC : DdsCompiler :=
  {| dds_compiler_0 := osc;
     dds_compiler_0_tick := osc_tick;
     m_axis_data_tdata := osc_out |}.

(** A power-on state of the [N]-channel module, every register zero. *)
Definition channel0 : @channel DC :=
  {| dds_i := {| acc := 0; pipe := repeat 0 9 |} : @dds_compiler_0 DC;
     dds_dout_latency_reg_i := repeat 0 4;
     prod_real_r1 := 0; prod_imag_r1 := 0; prod_r1 := 0 |}.

Definition power_on (N : nat) : @dds_top (PC N) DC :=
  {| phase_ctrl_i := 0 : @phase_ctrl (PC N);
     regs := {| dds_tvalid_r := false; dds_ctrl_int_r := 0;
                GEN_dds := repeat channel0 N |} |}.

(** Port values: reset asserted; a write of increment [p] with gain [g];
    steady running with gain [g]. *)
Definition in_reset : ports :=
  {| rstn := false; PINC_REG := 0; GAIN_REG := 0; WE_REG := false |}.

Definition in_write (p g : Z) : ports :=
  {| rstn := true; PINC_REG := p; GAIN_REG := g; WE_REG := true |}.

Definition in_hold (g : Z) : ports :=
  {| rstn := true; PINC_REG := 0; GAIN_REG := g; WE_REG := false |}.

(** The amplitude about to enter the output registers, then the nine
    registers. *)
Definition view (o : osc) : list Z := amplitude (acc o) :: pipe o.

(** *** Scenarios on the two-channel reference module *)

Definition top : Type := (@dds_top (PC 2) DC).

(** Reset, a write of increment [2^28] (a sixteenth of a turn per cycle),
    then [n] cycles of running, all with gain [g]. *)
Definition stimulus (n : nat) (g : Z) : list ports :=
  in_reset :: in_write (2 ^ 28) g :: repeat (in_hold g) n.

(** The module after the pipeline has filled, gain one half: the state
    that [stimulus 20 16384] reaches from [power_on 2], register by
    register. *)
Definition running_channel : @channel DC :=
  {| dds_i :=
       {| acc := 805306368;
          pipe := [1518492290; 821786177; 32767; 3473241665; 2776521346;
                   2311008507; 2147549184; 2311048965; 2776540542] |}
       : @dds_compiler_0 DC;
     dds_dout_latency_reg_i := [3473246655; 32769; 821791167; 1518511486];
     prod_real_r1 := 4089528320;
     prod_imag_r1 := 495992832;
     prod_r1 := 1073676288 |}.

Definition running : top :=
  {| phase_ctrl_i := 268435456 : @phase_ctrl (PC 2);
     regs := {| dds_tvalid_r := true;
                dds_ctrl_int_r := 1267650600228229401496971640832;
                GEN_dds := [running_channel; running_channel] |} |}.

(** [running] with the other channel and its control word replaced. *)
Definition other : top :=
  {| phase_ctrl_i := 268435456 : @phase_ctrl (PC 2);
     regs := {| dds_tvalid_r := true;
                dds_ctrl_int_r := 268435456;
                GEN_dds := [running_channel; channel0] |} |}.

(** The port values of the first 20 cycles after reset in [stimulus]. *)
Definition fill : list ports :=
  in_write (2 ^ 28) 16384 :: repeat (in_hold 16384) 19.

(** A channel whose latency register presents the sample
    [{-32768, -32768}], the most negative value of both components. *)
Definition corner_channel : @channel DC :=
  {| dds_i := dds_i channel0;
     dds_dout_latency_reg_i := [0; 0; 0; 2147516416];
     prod_real_r1 := 0; prod_imag_r1 := 0; prod_r1 := 0 |}.

(** What a channel reads at an edge with reset released and the most
    negative gain on [GAIN_REG]. *)
Definition edge_min_gain : ch_in :=
  {| c_rstn := true; c_gain := gain 32768; c_tvalid := true; c_tdata := 0 |}.

(** What a channel reads at an edge with reset released and [G] on
    [GAIN_REG]. *)
Definition edge (G : Z) : ch_in :=
  {| c_rstn := true; c_gain := gain G; c_tvalid := true; c_tdata := 0 |}.

(** Two port sequences that differ in [GAIN_REG] at cycle 22 only. *)
Definition gain_kept : list ports :=
  stimulus 20 16384 ++ [in_hold 16384; in_hold 16384].

Definition gain_dropped : list ports :=
  stimulus 20 16384 ++ [in_hold 0; in_hold 16384].

(** As [stimulus], with a second write, of increment [2^27], at cycle 7,
    followed by [n] cycles of running. *)
Definition rewrite_at_7 (n : nat) : list ports :=
  in_reset :: in_write (2 ^ 28) 16384 :: repeat (in_hold 16384) 5
  ++ in_write (2 ^ 27) 16384 :: repeat (in_hold 16384) n.

End Ref.

(** * Properties *)

(** ** Bit vectors *)

Module BitsFacts.
Import Bits.

Lemma trunc_mod w x : 0 <= w -> trunc w x = x mod 2 ^ w.
Proof. intros Hw. unfold trunc. now rewrite Z.land_ones. Qed.

Lemma trunc_range w x : 0 <= w -> 0 <= trunc w x < 2 ^ w.
Proof.
  intros Hw. rewrite trunc_mod by assumption.
  apply Z.mod_pos_bound. now apply Z.pow_pos_nonneg.
Qed.

Lemma trunc_small w x : 0 <= w -> 0 <= x < 2 ^ w -> trunc w x = x.
Proof. intros Hw Hx. rewrite trunc_mod by assumption. now apply Z.mod_small. Qed.

Lemma trunc_idem w x : 0 <= w -> trunc w (trunc w x) = trunc w x.
Proof. intros Hw. apply trunc_small; [assumption|now apply trunc_range]. Qed.

Lemma trunc_0 w : trunc w 0 = 0.
Proof. reflexivity. Qed.

Lemma slice_div_mod x lo w :
  0 <= lo -> 0 <= w -> slice x lo w = (x / 2 ^ lo) mod 2 ^ w.
Proof.
  intros Hlo Hw. unfold slice.
  now rewrite Z.land_ones, Z.shiftr_div_pow2.
Qed.

Lemma slice_range x lo w : 0 <= w -> 0 <= slice x lo w < 2 ^ w.
Proof. intros Hw. apply (trunc_range w (Z.shiftr x lo) Hw). Qed.

Lemma slice_0 lo w : slice 0 lo w = 0.
Proof. unfold slice. now rewrite Z.shiftr_0_l. Qed.

Lemma concat_add w hi lo :
  0 <= w -> concat w hi lo = hi * 2 ^ w + trunc w lo.
Proof.
  intros Hw. unfold concat.
  rewrite <- Z.shiftl_mul_pow2 by assumption.
  rewrite <- Z.add_lor_land.
  enough (E : Z.land (Z.shiftl hi w) (trunc w lo) = 0) by (rewrite E; lia).
  apply Z.bits_inj'. intros n Hn.
  rewrite Z.land_spec, Z.bits_0.
  destruct (Z.lt_ge_cases n w) as [Hlt|Hge].
  - rewrite Z.shiftl_spec_low by assumption. reflexivity.
  - unfold trunc. rewrite Z.land_spec, Z.ones_spec_high by lia.
    now rewrite !andb_false_r.
Qed.

Lemma signed_mod w x :
  0 < w ->
  signed w x = if x mod 2 ^ w <? 2 ^ (w - 1) then x mod 2 ^ w
               else x mod 2 ^ w - 2 ^ w.
Proof.
  intros Hw. unfold signed. rewrite trunc_mod by lia.
  pose proof (Z.testbit_spec' x (w - 1) ltac:(lia)) as Ht.
  assert (Hpow : 2 ^ w = 2 * 2 ^ (w - 1)).
  { rewrite <- Z.pow_succ_r by lia. f_equal. lia. }
  assert (Hpos : 0 < 2 ^ (w - 1)) by (apply Z.pow_pos_nonneg; lia).
  assert (Hm : x mod 2 ^ w = 2 ^ (w - 1) * ((x / 2 ^ (w - 1)) mod 2)
                             + x mod 2 ^ (w - 1)).
  { rewrite Hpow, Z.mul_comm. rewrite Z.rem_mul_r by lia. lia. }
  pose proof (Z.mod_pos_bound x (2 ^ (w - 1)) Hpos) as Hr.
  destruct (Z.testbit x (w - 1)); simpl in Ht; rewrite <- Ht in Hm;
    destruct (Z.ltb_spec (x mod 2 ^ w) (2 ^ (w - 1))); lia.
Qed.

Lemma signed_range w x : 0 < w -> - 2 ^ (w - 1) <= signed w x < 2 ^ (w - 1).
Proof.
  intros Hw. rewrite signed_mod by assumption.
  assert (Hpow : 2 ^ w = 2 * 2 ^ (w - 1)).
  { rewrite <- Z.pow_succ_r by lia. f_equal. lia. }
  pose proof (Z.mod_pos_bound x (2 ^ w) ltac:(apply Z.pow_pos_nonneg; lia)).
  destruct (Z.ltb_spec (x mod 2 ^ w) (2 ^ (w - 1))); lia.
Qed.

(** A signed value, written back as a [w]-bit pattern and read as signed
    again, is unchanged when it fits. *)
Lemma signed_trunc_fits w v :
  0 < w -> - 2 ^ (w - 1) <= v < 2 ^ (w - 1) -> signed w (trunc w v) = v.
Proof.
  intros Hw Hv.
  assert (Hpow : 2 ^ w = 2 * 2 ^ (w - 1)).
  { rewrite <- Z.pow_succ_r by lia. f_equal. lia. }
  rewrite signed_mod by assumption. rewrite trunc_mod by lia.
  rewrite Z.mod_mod by lia.
  destruct (Z_lt_le_dec v 0) as [Hneg|Hpos].
  - assert (E : v mod 2 ^ w = v + 2 ^ w).
    { symmetry. apply (Z.mod_unique v (2 ^ w) (-1)); lia. }
    rewrite E. destruct (Z.ltb_spec (v + 2 ^ w) (2 ^ (w - 1))); lia.
  - rewrite Z.mod_small by lia.
    destruct (Z.ltb_spec v (2 ^ (w - 1))); lia.
Qed.


(** Bits 30..15 of a 32-bit pattern are the arithmetic shift by 15 of the
    value, kept to 16 bits: nothing is rounded and nothing saturates. *)
Lemma slice_trunc_shiftr p : slice (trunc 32 p) 15 16 = trunc 16 (Z.shiftr p 15).
Proof.
  unfold slice, trunc. apply Z.bits_inj'. intros n Hn.
  rewrite !Z.land_spec, !Z.shiftr_spec, Z.land_spec by assumption.
  destruct (Z.lt_ge_cases n 16) as [Hlt|Hge].
  - rewrite (Z.ones_spec_low 32) by lia. now rewrite andb_true_r.
  - rewrite (Z.ones_spec_high 16) by lia. now rewrite !andb_false_r.
Qed.

Lemma slice_concat_lo hi lo : slice (concat 16 hi lo) 0 16 = trunc 16 lo.
Proof.
  rewrite slice_div_mod, concat_add by lia.
  rewrite Z.pow_0_r, Z.div_1_r, Z.add_comm, Z.mod_add by lia.
  rewrite <- trunc_mod by lia. apply trunc_idem. lia.
Qed.

Lemma slice_concat_hi hi lo : slice (concat 16 hi lo) 16 16 = trunc 16 hi.
Proof.
  rewrite slice_div_mod, concat_add by lia.
  pose proof (trunc_range 16 lo ltac:(lia)) as Hr.
  rewrite Z.div_add_l by lia. rewrite Z.div_small, Z.add_0_r by lia.
  now rewrite trunc_mod by lia.
Qed.

Lemma concat_range w hi lo :
  0 <= w -> forall k, 0 <= k -> 0 <= hi < 2 ^ k ->
  0 <= concat w hi lo < 2 ^ (w + k).
Proof.
  intros Hw k Hk Hhi. rewrite concat_add by assumption.
  pose proof (trunc_range w lo Hw) as Hr.
  rewrite Z.pow_add_r by assumption. nia.
Qed.

End BitsFacts.
Import BitsFacts.

(** ** Buses and generate loops *)

Lemma bus_range w ws :
  0 <= w -> 0 <= bus w ws < 2 ^ (w * Z.of_nat (length ws)).
Proof.
  intros Hw. induction ws as [|x r IH].
  - simpl. rewrite Z.mul_0_r. simpl. lia.
  - cbn [bus length]. rewrite Nat2Z.inj_succ, Z.mul_succ_r, Z.add_comm.
    apply concat_range; [assumption|nia|assumption].
Qed.

Lemma bus_slice w ws i x :
  0 < w -> nth_error ws i = Some x ->
  Bits.slice (bus w ws) (Z.of_nat i * w) w = Bits.trunc w x.
Proof.
  intros Hw. revert i. induction ws as [|y r IH]; intros [|i] Hi;
    simpl in Hi; try discriminate.
  - injection Hi as ->. cbn [bus].
    rewrite slice_div_mod, concat_add by lia. simpl Z.mul.
    rewrite Z.pow_0_r, Z.div_1_r, Z.add_comm, Z.mod_add.
    + rewrite <- trunc_mod by lia. apply trunc_idem. lia.
    + apply Z.pow_nonzero; lia.
  - cbn [bus]. rewrite <- (IH i Hi).
    rewrite !slice_div_mod, concat_add by lia.
    pose proof (trunc_range w y ltac:(lia)) as Hr.
    assert (Hp : 0 < 2 ^ w) by (apply Z.pow_pos_nonneg; lia).
    replace (Z.of_nat (S i) * w) with (w + Z.of_nat i * w) by lia.
    rewrite Z.pow_add_r by lia.
    rewrite <- Z.div_div by (try apply Z.pow_pos_nonneg; lia).
    rewrite Z.div_add_l by lia. rewrite (Z.div_small (Bits.trunc w y)) by lia.
    now rewrite Z.add_0_r.
Qed.

Lemma generate_length {A B} (f : nat -> A -> B) k l :
  length (generate f k l) = length l.
Proof. revert k. induction l; intros k; simpl; [reflexivity|now rewrite IHl]. Qed.

Lemma generate_nth_error {A B} (f : nat -> A -> B) l : forall k i,
  nth_error (generate f k l) i = option_map (f (k + i)%nat) (nth_error l i).
Proof.
  induction l as [|a r IH]; intros k [|i]; simpl; try reflexivity.
  - now rewrite Nat.add_0_r.
  - rewrite IH. now rewrite Nat.add_succ_r.
Qed.

Lemma generate_map {A B C} (f : nat -> A -> B) (g : B -> C) (h : A -> C) l :
  (forall i a, g (f i a) = h a) ->
  forall k, map g (generate f k l) = map h l.
Proof.
  intros E. induction l as [|a r IH]; intros k; simpl; [reflexivity|].
  now rewrite E, IH.
Qed.

(** ** The pipeline *)

Section Pipeline.

Context {PC : PhaseCtrl} {DC : DdsCompiler}.

Implicit Types (c : channel) (d : datapath) (s : dds_top) (x : ports).

(** *** Structure of a clock edge *)

Lemma datapath_tick_length (y : dp_in) d :
  length (GEN_dds (datapath_tick y d)) = length (GEN_dds d).
Proof. apply generate_length. Qed.

Lemma datapath_tick_nth (y : dp_in) d i :
  nth_error (GEN_dds (datapath_tick y d)) i
  = option_map (channel_tick (ch_of y d i)) (nth_error (GEN_dds d) i).
Proof. unfold datapath_tick; cbn [GEN_dds]. now rewrite generate_nth_error. Qed.

Lemma datapath_run_length (ys : list dp_in) : forall d,
  length (GEN_dds (datapath_run ys d)) = length (GEN_dds d).
Proof.
  induction ys as [|y r IH]; intros d; cbn [datapath_run]; [reflexivity|].
  now rewrite IH, datapath_tick_length.
Qed.

Lemma datapath_run_nth i (ys : list dp_in) : forall d,
  nth_error (GEN_dds (datapath_run ys d)) i
  = option_map (channel_run (ch_trace i ys d)) (nth_error (GEN_dds d) i).
Proof.
  induction ys as [|y r IH]; intros d; cbn [datapath_run ch_trace channel_run].
  - now destruct (nth_error (GEN_dds d) i).
  - rewrite IH, datapath_tick_nth. now destruct (nth_error (GEN_dds d) i).
Qed.

Lemma regs_run xs : forall s,
  regs (run xs s) = datapath_run (dp_trace xs s) (regs s).
Proof.
  induction xs as [|x r IH]; intros s; cbn [run dp_trace datapath_run];
    [reflexivity|]. now rewrite IH.
Qed.

Lemma run_nth i xs s :
  nth_error (GEN_dds (regs (run xs s))) i
  = option_map (channel_run (delivered i xs s)) (nth_error (GEN_dds (regs s)) i).
Proof. rewrite regs_run. apply datapath_run_nth. Qed.

Lemma run_app xs ys : forall s, run (xs ++ ys) s = run ys (run xs s).
Proof. induction xs as [|x r IH]; intros s; simpl; [reflexivity|apply IH]. Qed.

Lemma datapath_run_app (xs ys : list dp_in) : forall d,
  datapath_run (xs ++ ys) d = datapath_run ys (datapath_run xs d).
Proof. induction xs as [|x r IH]; intros d; simpl; [reflexivity|apply IH]. Qed.

Lemma channel_run_app (xs ys : list ch_in) : forall c,
  channel_run (xs ++ ys) c = channel_run ys (channel_run xs c).
Proof. induction xs as [|x r IH]; intros c; simpl; [reflexivity|apply IH]. Qed.

(** The output port carries [prod_r1[i]] at bits [i*32 +: 32]. *)
Lemma datapath_dout_slice d i c :
  nth_error (GEN_dds d) i = Some c ->
  Bits.slice (datapath_dout d) (Z.of_nat i * 32) 32 = Bits.trunc 32 (prod_r1 c).
Proof.
  intros Hc. unfold datapath_dout. apply bus_slice; [lia|].
  now rewrite nth_error_map, Hc.
Qed.

Lemma prod_range c : 0 <= prod c < 2 ^ 32.
Proof.
  unfold prod. apply (concat_range 16 _ _ ltac:(lia) 16 ltac:(lia)).
  apply slice_range. lia.
Qed.

Lemma prod_r1_tick (y : ch_in) c :
  prod_r1 (channel_tick y c) = if c_rstn y then prod c else 0.
Proof. reflexivity. Qed.

Lemma prod_r1_tick_range (y : ch_in) c : 0 <= prod_r1 (channel_tick y c) < 2 ^ 32.
Proof.
  rewrite prod_r1_tick. destruct (c_rstn y); [apply prod_range|lia].
Qed.

(** *** The gain product *)

Lemma prod_real_q_tick (y : ch_in) c :
  c_rstn y = true ->
  prod_real_q (channel_tick y c) = q15_scale (prod_a_real c) (c_gain y).
Proof.
  intros H. unfold prod_real_q, q15_scale. cbn [channel_tick prod_real_r1].
  rewrite H. unfold prod_real. apply slice_trunc_shiftr.
Qed.

Lemma prod_imag_q_tick (y : ch_in) c :
  c_rstn y = true ->
  prod_imag_q (channel_tick y c) = q15_scale (prod_a_imag c) (c_gain y).
Proof.
  intros H. unfold prod_imag_q, q15_scale. cbn [channel_tick prod_imag_r1].
  rewrite H. unfold prod_imag. apply slice_trunc_shiftr.
Qed.

Lemma q15_scale_range a g : 0 <= q15_scale a g < 2 ^ 16.
Proof. apply trunc_range. lia. Qed.

(** Two clock edges take a sample at the latency register's output to the
    output port. *)
Lemma channel_two_ticks (y1 y2 : ch_in) c :
  c_rstn y1 = true -> c_rstn y2 = true ->
  prod_r1 (channel_tick y2 (channel_tick y1 c))
  = Bits.concat 16 (q15_scale (prod_a_imag c) (c_gain y1))
                   (q15_scale (prod_a_real c) (c_gain y1)).
Proof.
  intros H1 H2. rewrite prod_r1_tick, H2. unfold prod.
  now rewrite prod_real_q_tick, prod_imag_q_tick.
Qed.

Lemma tick_tick_nth x1 x2 s i c :
  nth_error (GEN_dds (regs s)) i = Some c ->
  nth_error (GEN_dds (regs (tick x2 (tick x1 s)))) i
  = Some (channel_tick (ch_of (dp_of x2 (tick x1 s)) (regs (tick x1 s)) i)
            (channel_tick (ch_of (dp_of x1 s) (regs s) i) c)).
Proof.
  intros Hc. cbn [tick regs]. rewrite !datapath_tick_nth, Hc. reflexivity.
Qed.

(** C1. In steady state (reset released on the two edges the sample
    crosses), each 16-bit component of channel [i]'s output word is bits
    30..15 of the 32-bit signed product of the delayed signed sample and
    the signed gain, which is [(sample * gain) >> 15] kept to 16 bits:
    floor division, no rounding, no saturation. *)
Theorem gain_stage_truncates x1 x2 s i c :
  nth_error (GEN_dds (regs s)) i = Some c ->
  rstn x1 = true -> rstn x2 = true ->
  let g := gain (GAIN_REG x1) in
  let word := Bits.slice (dds_dout_o (tick x2 (tick x1 s))) (Z.of_nat i * 32) 32 in
  Bits.slice word 0 16 = Bits.slice (prod_real g c) 15 16
  /\ Bits.slice word 16 16 = Bits.slice (prod_imag g c) 15 16
  /\ Bits.slice word 0 16 = q15_scale (prod_a_real c) g
  /\ Bits.slice word 16 16 = q15_scale (prod_a_imag c) g
  /\ q15_scale (prod_a_real c) g = (prod_a_real c * g / 2 ^ 15) mod 2 ^ 16
  /\ q15_scale (prod_a_imag c) g = (prod_a_imag c * g / 2 ^ 15) mod 2 ^ 16.
Proof.
  intros Hc H1 H2 g word.
  assert (Hw : word = Bits.concat 16 (q15_scale (prod_a_imag c) g)
                                     (q15_scale (prod_a_real c) g)).
  { unfold word, dds_dout_o.
    rewrite (datapath_dout_slice _ _ _ (tick_tick_nth x1 x2 s i c Hc)).
    rewrite trunc_small by (lia || apply prod_r1_tick_range).
    now rewrite channel_two_ticks. }
  assert (Hlo : Bits.slice word 0 16 = q15_scale (prod_a_real c) g).
  { rewrite Hw, slice_concat_lo. apply trunc_small; [lia|apply q15_scale_range]. }
  assert (Hhi : Bits.slice word 16 16 = q15_scale (prod_a_imag c) g).
  { rewrite Hw, slice_concat_hi. apply trunc_small; [lia|apply q15_scale_range]. }
  repeat split.
  - rewrite Hlo. unfold prod_real, q15_scale. symmetry. apply slice_trunc_shiftr.
  - rewrite Hhi. unfold prod_imag, q15_scale. symmetry. apply slice_trunc_shiftr.
  - exact Hlo.
  - exact Hhi.
  - unfold q15_scale. now rewrite trunc_mod, Z.shiftr_div_pow2 by lia.
  - unfold q15_scale. now rewrite trunc_mod, Z.shiftr_div_pow2 by lia.
Qed.

(** *** The wrap-around corner of the product *)

Lemma q15_scale_no_wrap a g :
  -32768 <= a <= 32767 -> -32768 <= g <= 32767 ->
  ~ (a = -32768 /\ g = -32768) ->
  Bits.signed 16 (q15_scale a g) = Z.shiftr (a * g) 15.
Proof.
  intros Ha Hg Hne. unfold q15_scale.
  apply signed_trunc_fits; [lia|].
  rewrite Z.shiftr_div_pow2 by lia.
  change (2 ^ (16 - 1)) with 32768. change (2 ^ 15) with 32768.
  assert (Hlo : -32768 * 32768 <= a * g) by nia.
  assert (Hhi : a * g < 32768 * 32768).
  { destruct (Z.eq_dec a (-32768)) as [Ea|Na];
      destruct (Z.eq_dec g (-32768)) as [Eg|Ng]; [tauto|nia..]. }
  split.
  - apply Z.div_le_lower_bound; lia.
  - apply Z.div_lt_upper_bound; lia.
Qed.

Lemma q15_scale_corner :
  Bits.signed 16 (q15_scale (-32768) (-32768)) = -32768
  /\ Z.shiftr (-32768 * -32768) 15 = 32768.
Proof. split; reflexivity. Qed.

Lemma prod_a_real_range c : -32768 <= prod_a_real c <= 32767.
Proof.
  pose proof (signed_range 16 (Bits.slice (dds_dout_la c) 0 16) ltac:(lia)) as H.
  change (2 ^ (16 - 1)) with 32768 in H. unfold prod_a_real. lia.
Qed.

Lemma prod_a_imag_range c : -32768 <= prod_a_imag c <= 32767.
Proof.
  pose proof (signed_range 16 (Bits.slice (dds_dout_la c) 16 16) ltac:(lia)) as H.
  change (2 ^ (16 - 1)) with 32768 in H. unfold prod_a_imag. lia.
Qed.

Lemma gain_range G : -32768 <= gain G <= 32767.
Proof.
  pose proof (signed_range 16 G ltac:(lia)) as H.
  change (2 ^ (16 - 1)) with 32768 in H. unfold gain. lia.
Qed.

(** C9. Read as signed 16-bit numbers, the two components registered by
    one clock edge equal [(sample * gain) >> 15] for every sample and gain
    except the pair (-32768, -32768); there the exact quotient is +32768
    and bits 30..15 read -32768: the value wraps, it does not saturate. *)
Theorem gain_stage_wrap_corner (y : ch_in) (G : Z) c :
  c_rstn y = true -> c_gain y = gain G ->
  let g := gain G in
  let out_real := Bits.signed 16 (prod_real_q (channel_tick y c)) in
  let out_imag := Bits.signed 16 (prod_imag_q (channel_tick y c)) in
  (prod_a_real c = -32768 /\ g = -32768 ->
     out_real = -32768 /\ Z.shiftr (prod_a_real c * g) 15 = 32768)
  /\ (prod_a_imag c = -32768 /\ g = -32768 ->
     out_imag = -32768 /\ Z.shiftr (prod_a_imag c * g) 15 = 32768)
  /\ (~ (prod_a_real c = -32768 /\ g = -32768) ->
     out_real = Z.shiftr (prod_a_real c * g) 15)
  /\ (~ (prod_a_imag c = -32768 /\ g = -32768) ->
     out_imag = Z.shiftr (prod_a_imag c * g) 15).
Proof.
  intros Hr Hg g out_real out_imag. unfold out_real, out_imag.
  rewrite prod_real_q_tick, prod_imag_q_tick, Hg by assumption. fold g.
  pose proof (prod_a_real_range c) as Ba.
  pose proof (prod_a_imag_range c) as Bi.
  pose proof (gain_range G) as Bg. fold g in Bg.
  split; [|split; [|split]].
  - intros [-> ->]. exact q15_scale_corner.
  - intros [-> ->]. exact q15_scale_corner.
  - intros Hne. now apply q15_scale_no_wrap.
  - intros Hne. now apply q15_scale_no_wrap.
Qed.

(** *** The output register *)

Lemma tick_nth x s i :
  nth_error (GEN_dds (regs (tick x s))) i
  = option_map (channel_tick (ch_of (dp_of x s) (regs s) i))
      (nth_error (GEN_dds (regs s)) i).
Proof. cbn [tick regs]. apply datapath_tick_nth. Qed.

(** C8. Channel [i]'s output word is the register [prod_r1[i]], placed at
    bits [i*32 +: 32] of the bus; a clock edge loads it with
    [{prod_imag_q, prod_real_q}] (zero when reset is asserted), imaginary
    part in the upper half and real part in the lower half. *)
Theorem output_word_packing x s i c :
  nth_error (GEN_dds (regs s)) i = Some c ->
  let word := Bits.slice (dds_dout_o (tick x s)) (Z.of_nat i * 32) 32 in
  Bits.slice (dds_dout_o s) (Z.of_nat i * 32) 32 = Bits.trunc 32 (prod_r1 c)
  /\ word = (if rstn x then Bits.concat 16 (prod_imag_q c) (prod_real_q c) else 0)
  /\ (rstn x = true ->
      Bits.slice word 16 16 = prod_imag_q c /\ Bits.slice word 0 16 = prod_real_q c).
Proof.
  intros Hc word.
  assert (Hw : word = if rstn x then prod c else 0).
  { unfold word, dds_dout_o.
    pose proof (tick_nth x s i) as Hn. rewrite Hc in Hn. cbn [option_map] in Hn.
    rewrite (datapath_dout_slice _ _ _ Hn).
    rewrite trunc_small by (lia || apply prod_r1_tick_range).
    reflexivity. }
  split; [|split].
  - now apply datapath_dout_slice.
  - exact Hw.
  - intros Hr. rewrite Hw, Hr. unfold prod.
    rewrite slice_concat_hi, slice_concat_lo.
    split; apply trunc_small; (lia || apply slice_range; lia).
Qed.

(** *** Reset *)

Lemma bus_zero w ws : Forall (fun v => v = 0) ws -> bus w ws = 0.
Proof.
  induction 1 as [|v r Hv _ IH]; [reflexivity|].
  cbn [bus]. rewrite IH, Hv. unfold Bits.concat.
  now rewrite Z.shiftl_0_l, trunc_0.
Qed.

Lemma channel_tick_cleared (y : ch_in) c :
  c_rstn y = false -> channel_cleared (channel_tick y c).
Proof.
  intros H. unfold channel_cleared, channel_tick, LatencyReg.tick; cbn.
  rewrite H. repeat split.
Qed.

Lemma generate_Forall {A B} (P : B -> Prop) (f : nat -> A -> B) l :
  (forall i a, P (f i a)) -> forall k, Forall P (generate f k l).
Proof.
  intros Hf. induction l as [|a r IH]; intros k; simpl; constructor; auto.
Qed.

Lemma tick_cleared x s : rstn x = false -> cleared (tick x s).
Proof.
  intros H. unfold cleared. cbn [tick regs datapath_tick dds_tvalid_r
    dds_ctrl_int_r GEN_dds dp_of d_rstn]. rewrite H.
  repeat split. apply generate_Forall. intros i c.
  apply channel_tick_cleared. apply H.
Qed.

Lemma cleared_dout s : cleared s -> dds_dout_o s = 0.
Proof.
  intros (_ & _ & Hc). unfold dds_dout_o, datapath_dout.
  apply bus_zero. apply Forall_map.
  eapply Forall_impl; [|exact Hc]. intros c (_ & _ & _ & H). exact H.
Qed.

(** The oscillators never see [rstn]: whatever the ports carry at a clock
    edge, oscillator [i] steps on [dds_tvalid_r] and its slice of
    [dds_ctrl_int_r] as they were before the edge. *)
Lemma tick_oscillators x s :
  map dds_i (GEN_dds (regs (tick x s)))
  = generate
      (fun i c =>
         dds_compiler_0_tick (dds_tvalid_r (regs s))
           (Bits.slice (dds_ctrl_int_r (regs s)) (Z.of_nat i * 72) 72)
           (dds_i c))
      0%nat (GEN_dds (regs s)).
Proof.
  cbn [tick regs datapath_tick GEN_dds].
  generalize 0%nat. induction (GEN_dds (regs s)) as [|c r IH]; intros k;
    simpl; [reflexivity|]. now rewrite IH.
Qed.

(** C3, as the module has it.  A clock edge with [rstn] low clears
    [dds_tvalid_r], [dds_ctrl_int_r], the four latency registers, the two
    product registers and the output register of every channel, so the
    output bus reads zero after that edge and after every further edge on
    which reset is held.  The oscillators have no reset input: across that
    edge they step as on any other, on the registered [tvalid] and control
    word, whatever the ports carry. *)
Theorem reset_clears_module_registers xs x x' s :
  rstn x = false ->
  cleared (run (xs ++ [x]) s)
  /\ dds_dout_o (run (xs ++ [x]) s) = 0
  /\ map dds_i (GEN_dds (regs (tick x s)))
     = map dds_i (GEN_dds (regs (tick x' s))).
Proof.
  intros H.
  assert (Hc : cleared (run (xs ++ [x]) s)).
  { rewrite run_app. cbn [run]. now apply tick_cleared. }
  split; [exact Hc|split].
  - now apply cleared_dout.
  - now rewrite !tick_oscillators.
Qed.

(** *** The valid flag *)

Lemma tvalid_tick x s : dds_tvalid_r (regs (tick x s)) = rstn x.
Proof. cbn. now destruct (rstn x). Qed.

Lemma tvalid_run xs : forall s,
  Forall (fun y => rstn y = true) xs ->
  dds_tvalid_r (regs (run xs s))
  = match xs with [] => dds_tvalid_r (regs s) | _ :: _ => true end.
Proof.
  induction xs as [|x r IH]; intros s Hall; [reflexivity|].
  inversion Hall as [|? ? Hx Hr]; subst. cbn [run].
  rewrite (IH _ Hr). destruct r; [|reflexivity].
  now rewrite tvalid_tick.
Qed.

Lemma delivered_cons i x xs s :
  delivered i (x :: xs) s
  = ch_of (dp_of x s) (regs s) i :: delivered i xs (tick x s).
Proof. reflexivity. Qed.

Lemma delivered_tvalid i xs : forall s,
  Forall (fun y => rstn y = true) xs ->
  map c_tvalid (delivered i xs s)
  = firstn (length xs) (dds_tvalid_r (regs s) :: repeat true (length xs)).
Proof.
  induction xs as [|x r IH]; intros s Hall; [reflexivity|].
  inversion Hall as [|? ? Hx Hr]; subst.
  rewrite delivered_cons. cbn [map length firstn ch_of c_tvalid].
  f_equal. rewrite (IH _ Hr), tvalid_tick, Hx.
  change (true :: repeat true (length r)) with (repeat true (S (length r))).
  reflexivity.
Qed.

(** C10. After an edge with reset asserted, [dds_tvalid_r] is 0 during the
    first cycle of released reset and 1 during every later cycle for as
    long as reset stays released; the oscillators therefore read
    [tvalid = 0] on the first edge and [tvalid = 1] on all the others. *)
Theorem tvalid_after_release x xs s i :
  rstn x = false ->
  Forall (fun y => rstn y = true) xs ->
  dds_tvalid_r (regs (run xs (tick x s))) = negb (Nat.eqb (length xs) 0)
  /\ map c_tvalid (delivered i xs (tick x s))
     = firstn (length xs) (false :: repeat true (length xs)).
Proof.
  intros Hx Hall. split.
  - rewrite tvalid_run by assumption.
    destruct xs; [|reflexivity]. cbn [length Nat.eqb negb].
    now rewrite tvalid_tick.
  - rewrite delivered_tvalid by assumption. now rewrite tvalid_tick, Hx.
Qed.

(** *** Throughput *)

Lemma frames_length xs : forall s, length (frames xs s) = length xs.
Proof. induction xs as [|x r IH]; intros s; simpl; [reflexivity|now rewrite IH]. Qed.

Lemma frames_spec xs : forall s,
  frames xs s
  = map (fun k => dds_dout_o (run (firstn (S k) xs) s)) (seq 0 (length xs)).
Proof.
  induction xs as [|x r IH]; intros s; [reflexivity|].
  cbn [frames length seq map]. f_equal.
  rewrite <- seq_shift, map_map. rewrite IH. reflexivity.
Qed.

Lemma tick_length x s :
  length (GEN_dds (regs (tick x s))) = length (GEN_dds (regs s)).
Proof. apply datapath_tick_length. Qed.

Lemma run_length xs : forall s,
  length (GEN_dds (regs (run xs s))) = length (GEN_dds (regs s)).
Proof.
  induction xs as [|x r IH]; intros s; cbn [run]; [reflexivity|].
  now rewrite IH, tick_length.
Qed.

Lemma dds_dout_o_range s :
  0 <= dds_dout_o s < 2 ^ (32 * Z.of_nat (length (GEN_dds (regs s)))).
Proof.
  unfold dds_dout_o, datapath_dout.
  pose proof (bus_range 32 (map prod_r1 (GEN_dds (regs s))) ltac:(lia)) as H.
  now rewrite length_map in H.
Qed.

Lemma frames_range xs : forall s,
  Forall (fun f => 0 <= f < 2 ^ (32 * Z.of_nat (length (GEN_dds (regs s)))))
         (frames xs s).
Proof.
  induction xs as [|x r IH]; intros s; cbn [frames]; constructor.
  - rewrite <- (tick_length x s). apply dds_dout_o_range.
  - rewrite <- (tick_length x s). apply IH.
Qed.

(** *** The latency register *)

Lemma delivered_length i xs : forall s, length (delivered i xs s) = length xs.
Proof.
  induction xs as [|x r IH]; intros s; [reflexivity|].
  rewrite delivered_cons. cbn [length]. now rewrite IH.
Qed.

Lemma delivered_firstn i k : forall xs s,
  delivered i (firstn k xs) s = firstn k (delivered i xs s).
Proof.
  induction k as [|k IH]; intros [|x r] s; try reflexivity.
  cbn [firstn]. rewrite !delivered_cons. cbn [firstn]. now rewrite IH.
Qed.

Lemma delivered_rstn i xs : forall s,
  Forall (fun y => rstn y = true) xs ->
  Forall (fun y => c_rstn y = true) (delivered i xs s).
Proof.
  induction xs as [|x r IH]; intros s Hall; [constructor|].
  inversion Hall as [|? ? Hx Hr]; subst. rewrite delivered_cons.
  constructor; [exact Hx|now apply IH].
Qed.

Lemma la_tick (y : ch_in) c :
  dds_dout_latency_reg_i (channel_tick y c)
  = LatencyReg.tick 4 32 (c_rstn y) (dds_dout c) (dds_dout_latency_reg_i c).
Proof. reflexivity. Qed.

(** Four edges with reset released carry the oscillator output to the
    latency register's output, whatever the register held before. *)
Lemma channel_la_four (y1 y2 y3 y4 : ch_in) c :
  c_rstn y1 = true -> c_rstn y2 = true -> c_rstn y3 = true -> c_rstn y4 = true ->
  dds_dout_la (channel_run [y1; y2; y3; y4] c) = dds_dout c.
Proof.
  intros H1 H2 H3 H4. unfold dds_dout_la. cbn [channel_run].
  rewrite !la_tick, H1, H2, H3, H4. unfold LatencyReg.tick, LatencyReg.dout.
  cbn [firstn nth Nat.sub].
  unfold dds_dout. now rewrite !trunc_idem by lia.
Qed.

Lemma channel_la_fill (ys : list ch_in) c :
  Forall (fun y => c_rstn y = true) ys ->
  dds_dout_latency_reg_i c = repeat 0 4 ->
  (length ys < 4)%nat ->
  dds_dout_la (channel_run ys c) = 0.
Proof.
  intros Hall Hz Hlen. unfold dds_dout_la.
  destruct ys as [|y1 [|y2 [|y3 [|y4 r]]]]; cbn [length] in Hlen; try lia;
    repeat match goal with
           | H : Forall _ (_ :: _) |- _ => inversion H; subst; clear H
           end;
    cbn [channel_run]; rewrite ?la_tick, Hz;
    repeat match goal with H : c_rstn _ = true |- _ => rewrite H; clear H end;
    reflexivity.
Qed.

Lemma channel_la_delay (ys : list ch_in) c :
  Forall (fun y => c_rstn y = true) ys ->
  dds_dout_latency_reg_i c = repeat 0 4 ->
  dds_dout_la (channel_run ys c)
  = if (length ys <? 4)%nat then 0
    else dds_dout (channel_run (firstn (length ys - 4) ys) c).
Proof.
  intros Hall Hz. destruct (Nat.ltb_spec (length ys) 4) as [Hlt|Hge].
  - now apply channel_la_fill.
  - set (k := (length ys - 4)%nat).
    rewrite <- (firstn_skipn k ys) at 1. rewrite channel_run_app.
    assert (Hlen : length (skipn k ys) = 4%nat)
      by (rewrite length_skipn; unfold k; lia).
    assert (Hs : Forall (fun y => c_rstn y = true) (skipn k ys)).
    { rewrite <- (firstn_skipn k ys) in Hall. now apply Forall_app in Hall. }
    destruct (skipn k ys) as [|y1 [|y2 [|y3 [|y4 [|y5 r]]]]];
      try discriminate Hlen.
    inversion Hs as [|? ? A1 Hs1]; subst. inversion Hs1 as [|? ? A2 Hs2]; subst.
    inversion Hs2 as [|? ? A3 Hs3]; subst. inversion Hs3 as [|? ? A4 _]; subst.
    now apply channel_la_four.
Qed.

(** C6. After an edge with reset asserted and [n] edges with reset
    released, the latency register's output of channel [i] is that
    channel's oscillator output of four cycles earlier, and zero while
    [n < 4]; the data is not transformed, and every channel has the same
    four registers. *)
Theorem latency_aligner_delays x xs s i :
  rstn x = false ->
  Forall (fun y => rstn y = true) xs ->
  (i < length (GEN_dds (regs s)))%nat ->
  option_map dds_dout_la (nth_error (GEN_dds (regs (run xs (tick x s)))) i)
  = if (length xs <? 4)%nat then Some 0
    else option_map dds_dout
           (nth_error
              (GEN_dds (regs (run (firstn (length xs - 4) xs) (tick x s)))) i).
Proof.
  intros Hx Hall Hi.
  rewrite !run_nth.
  destruct (nth_error (GEN_dds (regs (tick x s))) i) as [c|] eqn:Hc.
  2:{ apply nth_error_None in Hc. rewrite tick_length in Hc. lia. }
  cbn [option_map].
  assert (Hz : dds_dout_latency_reg_i c = repeat 0 4).
  { pose proof (tick_cleared x s Hx) as (_ & _ & Hf).
    rewrite Forall_forall in Hf. apply (Hf c). eapply nth_error_In, Hc. }
  rewrite (channel_la_delay _ c (delivered_rstn i xs _ Hall) Hz).
  rewrite delivered_length.
  destruct (Nat.ltb_spec (length xs) 4); [reflexivity|].
  now rewrite delivered_firstn.
Qed.

(** *** Independence of the channels *)

(** C7. Channel [i]'s slice of the output bus is a function of that
    channel's own state and of what it reads: reset, the gain, and its
    valid flag and control word.  Two runs that agree on these agree on
    the slice, whatever the other channels hold or read. *)
Theorem channel_independence s1 s2 xs1 xs2 i c :
  nth_error (GEN_dds (regs s1)) i = Some c ->
  nth_error (GEN_dds (regs s2)) i = Some c ->
  delivered i xs1 s1 = delivered i xs2 s2 ->
  Bits.slice (dds_dout_o (run xs1 s1)) (Z.of_nat i * 32) 32
  = Bits.slice (dds_dout_o (run xs2 s2)) (Z.of_nat i * 32) 32.
Proof.
  intros H1 H2 Hd. unfold dds_dout_o.
  pose proof (run_nth i xs1 s1) as R1. rewrite H1 in R1.
  pose proof (run_nth i xs2 s2) as R2. rewrite H2 in R2.
  cbn [option_map] in R1, R2.
  rewrite (datapath_dout_slice _ _ _ R1), (datapath_dout_slice _ _ _ R2).
  now rewrite Hd.
Qed.

(** *** Latency of a change *)

Lemma osc_agree_refl m o : dds_latency (S m) -> osc_agree m o o.
Proof. intros HL xs ys Hlen Hm. apply HL; [assumption|lia]. Qed.

Lemma osc_agree_tick m o1 o2 tv1 td1 tv2 td2 :
  osc_agree (S m) o1 o2 ->
  osc_agree m (dds_compiler_0_tick tv1 td1 o1) (dds_compiler_0_tick tv2 td2 o2).
Proof.
  intros H xs ys Hlen Hm.
  apply (H ((tv1, td1) :: xs) ((tv2, td2) :: ys)); cbn [length]; lia.
Qed.

Lemma osc_agree_out m o1 o2 :
  osc_agree m o1 o2 -> m_axis_data_tdata o1 = m_axis_data_tdata o2.
Proof. intros H. apply (H [] []); cbn [length]; lia. Qed.

(** A channel agrees with itself up to the oscillator's latency. *)
Lemma ch_agree_refl k c : dds_latency 10 -> (k <= 15)%nat -> ch_agree k c c.
Proof.
  intros HL Hk. repeat split. intros _.
  apply osc_agree_refl. intros o xs ys E Hn. apply HL; [exact E|lia].
Qed.

Lemma nth_firstn_lt {A} (l : list A) (a0 : A) n j :
  (j < n)%nat -> nth j (firstn n l) a0 = nth j l a0.
Proof.
  revert l j. induction n as [|n IH]; intros l j Hj; [lia|].
  destruct l as [|a l]; [reflexivity|]. destruct j as [|j]; [reflexivity|].
  cbn [firstn nth]. apply IH. lia.
Qed.

Lemma ch_agree_tick k (y1 y2 : ch_in) c1 c2 :
  c_rstn y1 = c_rstn y2 -> c_gain y1 = c_gain y2 ->
  ch_agree (S k) c1 c2 ->
  ch_agree k (channel_tick y1 c1) (channel_tick y2 c2).
Proof.
  intros Hr Hg (Hp & Hq & Hla & Hosc).
  destruct (Hq ltac:(lia)) as [Hre Him].
  assert (Hprod : prod c1 = prod c2).
  { unfold prod, prod_real_q, prod_imag_q. now rewrite Hre, Him. }
  unfold ch_agree. cbn [channel_tick prod_r1 prod_real_r1 prod_imag_r1
                        dds_dout_latency_reg_i dds_i].
  rewrite <- Hr, <- Hg. split; [|split; [|split]].
  - now rewrite Hprod.
  - intros Hk.
    assert (Hout : dds_dout_la c1 = dds_dout_la c2).
    { unfold dds_dout_la, LatencyReg.dout. cbn [Nat.sub].
      f_equal. apply Hla; lia. }
    unfold prod_real, prod_imag, prod_a_real, prod_a_imag. now rewrite Hout.
  - intros j Hj Hjk. unfold LatencyReg.tick.
    destruct (c_rstn y1); [|reflexivity].
    rewrite !nth_firstn_lt by assumption.
    destruct j as [|j]; cbn [nth].
    + unfold dds_dout. do 2 f_equal.
      apply (osc_agree_out (S k - 6)). apply Hosc. lia.
    + apply Hla; lia.
  - intros Hk. apply osc_agree_tick.
    replace (S (k - 6)) with (S k - 6)%nat by lia. apply Hosc. lia.
Qed.

Lemma generate_Forall2 {A B} (R : A -> A -> Prop) (R' : B -> B -> Prop)
    (f g : nat -> A -> B) l1 l2 :
  (forall i a b, R a b -> R' (f i a) (g i b)) ->
  Forall2 R l1 l2 -> forall k, Forall2 R' (generate f k l1) (generate g k l2).
Proof.
  intros Hfg. induction 1 as [|a b l1 l2 Hab _ IH]; intros k; simpl;
    constructor; auto.
Qed.

Lemma Forall2_refl {A} (R : A -> A -> Prop) l :
  (forall a, R a a) -> Forall2 R l l.
Proof. intros H. induction l; constructor; auto. Qed.

Lemma datapath_agree_tick k (y1 y2 : dp_in) d1 d2 :
  d_rstn y1 = d_rstn y2 -> d_gain y1 = d_gain y2 ->
  Forall2 (ch_agree (S k)) (GEN_dds d1) (GEN_dds d2) ->
  Forall2 (ch_agree k) (GEN_dds (datapath_tick y1 d1))
                       (GEN_dds (datapath_tick y2 d2)).
Proof.
  intros Hr Hg H. cbn [datapath_tick GEN_dds].
  apply (generate_Forall2 (ch_agree (S k))); [|exact H].
  intros i a b Hab. apply ch_agree_tick; [exact Hr| |exact Hab].
  cbn [ch_of c_gain]. now rewrite Hg.
Qed.

Lemma datapath_agree_run (ys1 : list dp_in) : forall ys2 k d1 d2,
  map d_rstn ys1 = map d_rstn ys2 -> map d_gain ys1 = map d_gain ys2 ->
  Forall2 (ch_agree (length ys1 + k)) (GEN_dds d1) (GEN_dds d2) ->
  Forall2 (ch_agree k) (GEN_dds (datapath_run ys1 d1))
                       (GEN_dds (datapath_run ys2 d2)).
Proof.
  induction ys1 as [|y1 r1 IH]; intros [|y2 r2] k d1 d2 Hr Hg H;
    try discriminate; [exact H|].
  injection Hr as Hr0 Hr. injection Hg as Hg0 Hg.
  cbn [datapath_run]. apply IH; [assumption..|].
  now apply datapath_agree_tick.
Qed.

Lemma datapath_agree_dout d1 d2 :
  Forall2 (ch_agree 0) (GEN_dds d1) (GEN_dds d2) ->
  datapath_dout d1 = datapath_dout d2.
Proof.
  intros H. unfold datapath_dout. f_equal.
  induction H as [|a b l1 l2 (Hab & _) _ IH]; [reflexivity|].
  cbn [map]. now rewrite Hab, IH.
Qed.

(** An edge whose inputs differ in the control word only leaves every
    channel as it would have been. *)
Lemma datapath_tick_channels (y1 y2 : dp_in) d :
  d_rstn y1 = d_rstn y2 -> d_gain y1 = d_gain y2 ->
  GEN_dds (datapath_tick y1 d) = GEN_dds (datapath_tick y2 d).
Proof.
  intros Hr Hg. cbn [datapath_tick GEN_dds]. unfold ch_of.
  now rewrite Hr, Hg.
Qed.

Lemma split_at_change {A} (t : nat) (l1 l2 : list A) :
  length l1 = length l2 -> firstn t l1 = firstn t l2 ->
  l1 = l2
  \/ exists pre a1 a2 r1 r2,
       l1 = pre ++ a1 :: r1 /\ l2 = pre ++ a2 :: r2 /\ length pre = t.
Proof.
  intros Hlen Hpre. destruct (Nat.le_gt_cases (length l1) t) as [Hle|Hgt].
  - left. rewrite !firstn_all2 in Hpre by lia. exact Hpre.
  - right. exists (firstn t l1).
    destruct (skipn t l1) as [|a1 r1] eqn:E1.
    { apply (f_equal (@length A)) in E1. rewrite length_skipn in E1.
      cbn in E1. lia. }
    destruct (skipn t l2) as [|a2 r2] eqn:E2.
    { apply (f_equal (@length A)) in E2. rewrite length_skipn in E2.
      cbn in E2. lia. }
    exists a1, a2, r1, r2. repeat split.
    + now rewrite <- E1, firstn_skipn.
    + now rewrite Hpre, <- E2, firstn_skipn.
    + rewrite length_firstn. lia.
Qed.

(** A control word presented at cycle [t] cannot reach the output port
    before cycle [t + 17]. *)
Lemma ctrl_latency_datapath (tr1 tr2 : list dp_in) t d :
  dds_latency 10 ->
  map d_rstn tr1 = map d_rstn tr2 ->
  map d_gain tr1 = map d_gain tr2 ->
  firstn t tr1 = firstn t tr2 ->
  (length tr1 <= t + 16)%nat ->
  datapath_dout (datapath_run tr1 d) = datapath_dout (datapath_run tr2 d).
Proof.
  intros HL Hr Hg Hpre Hlen.
  assert (Hl : length tr1 = length tr2).
  { apply (f_equal (@length bool)) in Hr. now rewrite !length_map in Hr. }
  destruct (split_at_change t tr1 tr2 Hl Hpre)
    as [->|(pre & a1 & a2 & r1 & r2 & -> & -> & Ht)]; [reflexivity|].
  rewrite !map_app in Hr, Hg. cbn [map] in Hr, Hg.
  apply app_inv_head in Hr, Hg.
  injection Hr as Hr0 Hr. injection Hg as Hg0 Hg.
  rewrite !datapath_run_app. cbn [datapath_run].
  apply datapath_agree_dout.
  rewrite length_app in Hlen. cbn [length] in Hlen.
  apply datapath_agree_run; [assumption..|].
  rewrite (datapath_tick_channels a1 a2) by assumption.
  apply Forall2_refl. intros c. apply ch_agree_refl; [exact HL|lia].
Qed.

(** A gain presented at cycle [t] cannot reach the output port before
    cycle [t + 2]. *)
Lemma gain_latency_datapath (tr1 tr2 : list dp_in) t d :
  map d_rstn tr1 = map d_rstn tr2 ->
  firstn t tr1 = firstn t tr2 ->
  (length tr1 <= t + 1)%nat ->
  datapath_dout (datapath_run tr1 d) = datapath_dout (datapath_run tr2 d).
Proof.
  intros Hr Hpre Hlen.
  assert (Hl : length tr1 = length tr2).
  { apply (f_equal (@length bool)) in Hr. now rewrite !length_map in Hr. }
  destruct (split_at_change t tr1 tr2 Hl Hpre)
    as [->|(pre & a1 & a2 & r1 & r2 & -> & -> & Ht)]; [reflexivity|].
  rewrite !map_app in Hr. cbn [map] in Hr. apply app_inv_head in Hr.
  injection Hr as Hr0 Hr.
  rewrite length_app in Hlen. cbn [length] in Hlen.
  destruct r1; [|cbn [length] in Hlen; lia].
  destruct r2; [|discriminate Hr].
  rewrite !datapath_run_app. cbn [datapath_run].
  unfold datapath_dout. f_equal. cbn [datapath_tick GEN_dds].
  rewrite !(generate_map _ prod_r1 (fun c => if d_rstn a1 then prod c else 0));
    try reflexivity.
  intros i c. cbn. now rewrite Hr0.
Qed.

Lemma dp_trace_length xs : forall s, length (dp_trace xs s) = length xs.
Proof. induction xs as [|x r IH]; intros s; simpl; [reflexivity|now rewrite IH]. Qed.

Lemma with_ctrl_of_fields (tr1 : list dp_in) : forall tr2,
  length tr1 = length tr2 ->
  map d_rstn (with_ctrl_of tr1 tr2) = map d_rstn tr1
  /\ map d_gain (with_ctrl_of tr1 tr2) = map d_gain tr1
  /\ map d_ctrl_int (with_ctrl_of tr1 tr2) = map d_ctrl_int tr2.
Proof.
  induction tr1 as [|a r1 IH]; intros [|b r2] Hlen; try discriminate;
    [repeat split|].
  injection Hlen as Hlen. destruct (IH r2 Hlen) as (H1 & H2 & H3).
  cbn [with_ctrl_of map d_rstn d_gain d_ctrl_int]. now rewrite H1, H2, H3.
Qed.

Lemma firstn_fields t : forall tr1 tr2 : list dp_in,
  firstn t (map d_rstn tr1) = firstn t (map d_rstn tr2) ->
  firstn t (map d_gain tr1) = firstn t (map d_gain tr2) ->
  firstn t (map d_ctrl_int tr1) = firstn t (map d_ctrl_int tr2) ->
  length tr1 = length tr2 ->
  firstn t tr1 = firstn t tr2.
Proof.
  induction t as [|t IH]; intros [|a r1] [|b r2] Hr Hg Hc Hlen;
    try discriminate; try reflexivity.
  cbn [map firstn] in *. injection Hr as Hr0 Hr. injection Hg as Hg0 Hg.
  injection Hc as Hc0 Hc. injection Hlen as Hlen.
  rewrite (IH r1 r2) by assumption.
  destruct a, b; cbn in *; now subst.
Qed.

(** C2, as the module has it.  The output port at cycle [n] depends on
    the control words that [phase_ctrl_i] presented before cycle [n - 16]
    and on the gains presented before cycle [n - 1] only: a control-word
    change effective at cycle [tc] cannot show before cycle [tc + 17]
    (1 input register + 10 oscillator + 4 latency registers + 2 product
    and output registers), a gain change effective at cycle [tg] cannot
    show before cycle [tg + 2] (the product and output registers alone).
    Both delays are the same for every channel and for all data. *)
Theorem change_latency s1 s2 xs1 xs2 tg tc :
  dds_latency 10 ->
  regs s1 = regs s2 ->
  map d_rstn (dp_trace xs1 s1) = map d_rstn (dp_trace xs2 s2) ->
  firstn tg (map d_gain (dp_trace xs1 s1))
  = firstn tg (map d_gain (dp_trace xs2 s2)) ->
  firstn tc (map d_ctrl_int (dp_trace xs1 s1))
  = firstn tc (map d_ctrl_int (dp_trace xs2 s2)) ->
  (length xs1 <= tg + 1)%nat ->
  (length xs1 <= tc + 16)%nat ->
  dds_dout_o (run xs1 s1) = dds_dout_o (run xs2 s2).
Proof.
  intros HL Hregs Hr Hg Hc Hlg Hlc. unfold dds_dout_o.
  rewrite !regs_run, <- Hregs.
  set (tr1 := dp_trace xs1 s1) in *. set (tr2 := dp_trace xs2 s2) in *.
  assert (Hlen : length tr1 = length tr2).
  { apply (f_equal (@length bool)) in Hr. now rewrite !length_map in Hr. }
  assert (Hl1 : length tr1 = length xs1) by apply dp_trace_length.
  destruct (with_ctrl_of_fields tr1 tr2 Hlen) as (M1 & M2 & M3).
  assert (Hlm : length (with_ctrl_of tr1 tr2) = length tr1).
  { apply (f_equal (@length bool)) in M1. now rewrite !length_map in M1. }
  transitivity (datapath_dout (datapath_run (with_ctrl_of tr1 tr2) (regs s1))).
  - apply (ctrl_latency_datapath _ _ tc); [exact HL|congruence..| |lia].
    symmetry. apply firstn_fields; [congruence..|exact Hlm].
  - apply (gain_latency_datapath _ _ tg); [congruence| |lia].
    apply firstn_fields; [congruence..|lia].
Qed.

End Pipeline.

(** ** Further properties of the gain product *)

Section GainProduct.

Context {DC : DdsCompiler}.

Implicit Types (c : channel) (y : ch_in).

(** The signed value a clock edge leaves in the two quantised wires. *)
Lemma stage_real_value y G c :
  c_rstn y = true -> c_gain y = gain G ->
  ~ (prod_a_real c = -32768 /\ gain G = -32768) ->
  Bits.signed 16 (prod_real_q (channel_tick y c))
  = prod_a_real c * gain G / 32768.
Proof.
  intros Hr Hg Hne. rewrite prod_real_q_tick, Hg by assumption.
  rewrite q15_scale_no_wrap;
    [|apply prod_a_real_range|apply gain_range|exact Hne].
  now rewrite Z.shiftr_div_pow2 by lia.
Qed.

Lemma stage_imag_value y G c :
  c_rstn y = true -> c_gain y = gain G ->
  ~ (prod_a_imag c = -32768 /\ gain G = -32768) ->
  Bits.signed 16 (prod_imag_q (channel_tick y c))
  = prod_a_imag c * gain G / 32768.
Proof.
  intros Hr Hg Hne. rewrite prod_imag_q_tick, Hg by assumption.
  rewrite q15_scale_no_wrap;
    [|apply prod_a_imag_range|apply gain_range|exact Hne].
  now rewrite Z.shiftr_div_pow2 by lia.
Qed.

Lemma product_fits_32 a g :
  -32768 <= a <= 32767 -> -32768 <= g <= 32767 ->
  - 2 ^ 31 <= a * g < 2 ^ 31.
Proof. intros Ha Hg. change (2 ^ 31) with 2147483648. nia. Qed.

Lemma product_below_guard a g :
  -32768 <= a <= 32767 -> -32768 <= g <= 32767 ->
  ~ (a = -32768 /\ g = -32768) ->
  - 2 ^ 30 <= a * g < 2 ^ 30.
Proof.
  intros Ha Hg Hne. change (2 ^ 30) with 1073741824. split; [nia|].
  destruct (Z.eq_dec a (-32768)) as [Ea|Na];
    destruct (Z.eq_dec g (-32768)) as [Eg|Ng]; [tauto|nia..].
Qed.

(** Bits 31 and 30 of a 32-bit pattern agree when the value it encodes
    lies within 31 bits. *)
Lemma guard_bit_redundant v :
  - 2 ^ 30 <= v < 2 ^ 30 ->
  Z.testbit (Bits.trunc 32 v) 31 = Z.testbit (Bits.trunc 32 v) 30.
Proof.
  intros Hv. unfold Bits.trunc.
  rewrite !Z.land_spec, !Z.ones_spec_low, !andb_true_r by lia.
  assert (H31 : Z.b2z (Z.testbit v 31) = Z.b2z (Z.testbit v 30)).
  { rewrite !Z.testbit_spec' by lia.
    change (2 ^ 31) with 2147483648. change (2 ^ 30) with 1073741824 in *.
    destruct (Z_lt_le_dec v 0) as [Hneg|Hpos].
    - replace (v / 2147483648) with (-1)
        by (apply (Z.div_unique v 2147483648 (-1) (v + 2147483648)); lia).
      replace (v / 1073741824) with (-1)
        by (apply (Z.div_unique v 1073741824 (-1) (v + 1073741824)); lia).
      reflexivity.
    - rewrite !Z.div_small by lia. reflexivity. }
  destruct (Z.testbit v 31), (Z.testbit v 30); simpl in H31; congruence.
Qed.

(** X4.  The 32-bit wires [prod_real] and [prod_imag] hold the exact
    product of the signed sample and the signed gain: a 16 by 16 bit
    product never overflows 32 bits.  Unless sample and gain are both
    -32768, bit 31 repeats bit 30, so the part select [30 -: 16] drops a
    redundant sign bit only. *)
Theorem product_is_exact (G : Z) c :
  Bits.signed 32 (prod_real (gain G) c) = prod_a_real c * gain G
  /\ Bits.signed 32 (prod_imag (gain G) c) = prod_a_imag c * gain G
  /\ (~ (prod_a_real c = -32768 /\ gain G = -32768) ->
      Z.testbit (prod_real (gain G) c) 31 = Z.testbit (prod_real (gain G) c) 30)
  /\ (~ (prod_a_imag c = -32768 /\ gain G = -32768) ->
      Z.testbit (prod_imag (gain G) c) 31 = Z.testbit (prod_imag (gain G) c) 30).
Proof.
  pose proof (prod_a_real_range c) as Ba.
  pose proof (prod_a_imag_range c) as Bi.
  pose proof (gain_range G) as Bg.
  unfold prod_real, prod_imag. split; [|split; [|split]].
  - apply signed_trunc_fits; [lia|]. now apply product_fits_32.
  - apply signed_trunc_fits; [lia|]. now apply product_fits_32.
  - intros Hne. apply guard_bit_redundant. now apply product_below_guard.
  - intros Hne. apply guard_bit_redundant. now apply product_below_guard.
Qed.

Lemma scaled_magnitude a g :
  -32768 <= g <= 32767 -> Z.abs (a * g / 32768) <= Z.abs a.
Proof.
  intros Hg.
  assert (Hlo : - Z.abs a <= a * g / 32768)
    by (apply Z.div_le_lower_bound; [lia|]; destruct (Z.abs_spec a); nia).
  assert (Hhi : a * g / 32768 <= Z.abs a)
    by (apply Z.div_le_upper_bound; [lia|]; destruct (Z.abs_spec a); nia).
  lia.
Qed.

(** X5.  The gain stage never amplifies: unless sample and gain are both
    -32768, each signed output component is at most the sample in
    magnitude. *)
Theorem gain_stage_never_amplifies y G c :
  c_rstn y = true -> c_gain y = gain G ->
  (~ (prod_a_real c = -32768 /\ gain G = -32768) ->
   Z.abs (Bits.signed 16 (prod_real_q (channel_tick y c)))
   <= Z.abs (prod_a_real c))
  /\ (~ (prod_a_imag c = -32768 /\ gain G = -32768) ->
   Z.abs (Bits.signed 16 (prod_imag_q (channel_tick y c)))
   <= Z.abs (prod_a_imag c)).
Proof.
  intros Hr Hg. pose proof (gain_range G) as Bg. split; intros Hne.
  - rewrite (stage_real_value y G c Hr Hg Hne). now apply scaled_magnitude.
  - rewrite (stage_imag_value y G c Hr Hg Hne). now apply scaled_magnitude.
Qed.

Lemma negate_value a : a * -32768 / 32768 = - a.
Proof. replace (a * -32768) with (- a * 32768) by lia. now apply Z.div_mul. Qed.

(** X6.  With the gain at -32768 (minus one in Q15) the stage negates
    exactly: every sample other than -32768 comes out with its sign
    flipped and nothing lost. *)
Theorem gain_minus_one_negates y G c :
  c_rstn y = true -> c_gain y = gain G -> gain G = -32768 ->
  (prod_a_real c <> -32768 ->
   Bits.signed 16 (prod_real_q (channel_tick y c)) = - prod_a_real c)
  /\ (prod_a_imag c <> -32768 ->
   Bits.signed 16 (prod_imag_q (channel_tick y c)) = - prod_a_imag c).
Proof.
  intros Hr Hg HG. split; intros Hne.
  - rewrite (stage_real_value y G c Hr Hg) by tauto.
    rewrite HG. apply negate_value.
  - rewrite (stage_imag_value y G c Hr Hg) by tauto.
    rewrite HG. apply negate_value.
Qed.

Lemma full_scale_value a :
  -32768 <= a <= 32767 ->
  a * 32767 / 32768
  = if 0 <? a then a - 1 else if a =? -32768 then a + 1 else a.
Proof.
  intros Ha. destruct (Z.ltb_spec 0 a) as [Hp|Hn].
  - symmetry. apply (Z.div_unique _ _ _ (32768 - a)); lia.
  - destruct (Z.eqb_spec a (-32768)) as [->|Hm]; [reflexivity|].
    symmetry. apply (Z.div_unique _ _ _ (- a)); lia.
Qed.

(** X7.  Unity gain does not exist.  The largest gain, 32767, passes a
    sample that is zero or negative unchanged (and -32768 as -32767) and
    returns a positive sample reduced by one. *)
Theorem gain_full_scale_loses_one y G c :
  c_rstn y = true -> c_gain y = gain G -> gain G = 32767 ->
  Bits.signed 16 (prod_real_q (channel_tick y c))
  = (if 0 <? prod_a_real c then prod_a_real c - 1
     else if prod_a_real c =? -32768 then prod_a_real c + 1
     else prod_a_real c)
  /\ Bits.signed 16 (prod_imag_q (channel_tick y c))
  = (if 0 <? prod_a_imag c then prod_a_imag c - 1
     else if prod_a_imag c =? -32768 then prod_a_imag c + 1
     else prod_a_imag c).
Proof.
  intros Hr Hg HG. split.
  - rewrite (stage_real_value y G c Hr Hg) by lia.
    rewrite HG. apply full_scale_value, prod_a_real_range.
  - rewrite (stage_imag_value y G c Hr Hg) by lia.
    rewrite HG. apply full_scale_value, prod_a_imag_range.
Qed.

Lemma power_of_two_value a k :
  0 <= k <= 14 -> a * 2 ^ k / 32768 = Z.shiftr a (15 - k).
Proof.
  intros Hk. rewrite Z.shiftr_div_pow2 by lia.
  replace 32768 with (2 ^ (15 - k) * 2 ^ k)
    by (rewrite <- Z.pow_add_r by lia; now replace (15 - k + k) with 15 by lia).
  apply Z.div_mul_cancel_r; apply Z.pow_nonzero; lia.
Qed.

(** X8.  A gain that is a power of two, [2^k] with [0 <= k <= 14], is an
    arithmetic shift right of the sample by [15 - k] bits; in particular
    16384 halves the sample, rounding towards minus infinity. *)
Theorem gain_power_of_two_shifts y G c k :
  c_rstn y = true -> c_gain y = gain G -> 0 <= k <= 14 -> gain G = 2 ^ k ->
  Bits.signed 16 (prod_real_q (channel_tick y c))
  = Z.shiftr (prod_a_real c) (15 - k)
  /\ Bits.signed 16 (prod_imag_q (channel_tick y c))
  = Z.shiftr (prod_a_imag c) (15 - k).
Proof.
  intros Hr Hg Hk HG.
  assert (Hpos : 0 < gain G) by (rewrite HG; apply Z.pow_pos_nonneg; lia).
  split.
  - rewrite (stage_real_value y G c Hr Hg) by lia.
    rewrite HG. now apply power_of_two_value.
  - rewrite (stage_imag_value y G c Hr Hg) by lia.
    rewrite HG. now apply power_of_two_value.
Qed.

(** X9.  With a gain that is not negative the stage keeps the order of
    the samples: a larger sample never gives a smaller output. *)
Theorem gain_stage_monotone y G c1 c2 :
  c_rstn y = true -> c_gain y = gain G -> 0 <= gain G ->
  (prod_a_real c1 <= prod_a_real c2 ->
   Bits.signed 16 (prod_real_q (channel_tick y c1))
   <= Bits.signed 16 (prod_real_q (channel_tick y c2)))
  /\ (prod_a_imag c1 <= prod_a_imag c2 ->
   Bits.signed 16 (prod_imag_q (channel_tick y c1))
   <= Bits.signed 16 (prod_imag_q (channel_tick y c2))).
Proof.
  intros Hr Hg Hpos. split; intros Hle.
  - rewrite !(stage_real_value y G _ Hr Hg) by lia.
    apply Z.div_le_mono; [lia|nia].
  - rewrite !(stage_imag_value y G _ Hr Hg) by lia.
    apply Z.div_le_mono; [lia|nia].
Qed.

End GainProduct.

(** ** Further properties of the pipeline *)

(** A part select that lies within the bits a net keeps reads the value
    itself. *)
Lemma slice_trunc_within W x lo w :
  0 <= lo -> 0 <= w -> lo + w <= W ->
  Bits.slice (Bits.trunc W x) lo w = Bits.slice x lo w.
Proof.
  intros Hlo Hw HW. unfold Bits.slice, Bits.trunc.
  apply Z.bits_inj'. intros n Hn.
  rewrite !Z.land_spec, !Z.shiftr_spec, Z.land_spec by assumption.
  destruct (Z.lt_ge_cases n w) as [Hlt|Hge].
  - rewrite (Z.ones_spec_low W) by lia. now rewrite andb_true_r.
  - rewrite (Z.ones_spec_high w) by lia. now rewrite !andb_false_r.
Qed.

Lemma generate_Forall_impl {A B} (P : A -> Prop) (Q : B -> Prop)
    (f : nat -> A -> B) l :
  (forall i a, P a -> Q (f i a)) ->
  Forall P l -> forall k, Forall Q (generate f k l).
Proof.
  intros Hf. induction 1 as [|a r Ha _ IH]; intros k; simpl; constructor; auto.
Qed.

Section PipelinePaths.

Context {PC : PhaseCtrl} {DC : DdsCompiler}.

Implicit Types (c : channel) (d : datapath) (s : dds_top) (x : ports).

(** *** The input register *)

(** X3.  The input register hands every channel its own control word:
    at the edge after one with reset released, oscillator [i] reads bits
    [i*72 +: 72] of what [phase_ctrl_i] drove on [dds_ctrl_int], with
    [tvalid] set; after an edge with reset asserted it reads zero with
    [tvalid] clear. *)
Theorem control_word_delivery x (y : dp_in) s i :
  (i < length (GEN_dds (regs s)))%nat ->
  c_tdata (ch_of y (regs (tick x s)) i)
  = (if rstn x
     then Bits.slice
            (dds_ctrl_o (rstn x) (PINC_REG x) (WE_REG x) (phase_ctrl_i s))
            (Z.of_nat i * 72) 72
     else 0)
  /\ c_tvalid (ch_of y (regs (tick x s)) i) = rstn x.
Proof.
  intros Hi. cbn [ch_of c_tdata c_tvalid tick regs datapath_tick
                  dds_ctrl_int_r dds_tvalid_r dp_of d_rstn d_ctrl_int].
  destruct (rstn x); split; try reflexivity.
  - apply slice_trunc_within; lia.
  - apply slice_0.
Qed.

(** *** From the oscillator to the output port *)

Lemma delivered_fields i xs : forall s,
  map c_rstn (delivered i xs s) = map rstn xs
  /\ map c_gain (delivered i xs s) = map (fun x => gain (GAIN_REG x)) xs.
Proof.
  induction xs as [|x r IH]; intros s; [split; reflexivity|].
  rewrite delivered_cons. destruct (IH (tick x s)) as [H1 H2].
  cbn [map ch_of c_rstn c_gain dp_of d_rstn d_gain]. now rewrite H1, H2.
Qed.

(** Six edges on one channel: four through the latency register, two
    through the product and output registers. *)
Lemma channel_six_ticks (y1 y2 y3 y4 y5 y6 : ch_in) c :
  c_rstn y1 = true -> c_rstn y2 = true -> c_rstn y3 = true ->
  c_rstn y4 = true -> c_rstn y5 = true -> c_rstn y6 = true ->
  prod_r1 (channel_run [y1; y2; y3; y4; y5; y6] c)
  = Bits.concat 16
      (q15_scale (Bits.signed 16 (Bits.slice (dds_dout c) 16 16)) (c_gain y5))
      (q15_scale (Bits.signed 16 (Bits.slice (dds_dout c) 0 16)) (c_gain y5)).
Proof.
  intros H1 H2 H3 H4 H5 H6.
  change [y1; y2; y3; y4; y5; y6] with ([y1; y2; y3; y4] ++ [y5; y6]).
  rewrite channel_run_app.
  change (channel_run [y5; y6] ?c0) with (channel_tick y6 (channel_tick y5 c0)).
  rewrite channel_two_ticks by assumption.
  unfold prod_a_imag, prod_a_real.
  now rewrite (channel_la_four y1 y2 y3 y4 c H1 H2 H3 H4).
Qed.

(** X1.  With reset released, the output word of channel [i] is the
    oscillator's sample of six cycles earlier, each half scaled by
    truncation with the gain that was on [GAIN_REG] four cycles after the
    oscillator produced the sample (two cycles before the word shows). *)
Theorem oscillator_to_output x1 x2 x3 x4 x5 x6 s i c :
  nth_error (GEN_dds (regs s)) i = Some c ->
  rstn x1 = true -> rstn x2 = true -> rstn x3 = true ->
  rstn x4 = true -> rstn x5 = true -> rstn x6 = true ->
  Bits.slice (dds_dout_o (run [x1; x2; x3; x4; x5; x6] s)) (Z.of_nat i * 32) 32
  = Bits.concat 16
      (q15_scale (Bits.signed 16 (Bits.slice (dds_dout c) 16 16))
                 (gain (GAIN_REG x5)))
      (q15_scale (Bits.signed 16 (Bits.slice (dds_dout c) 0 16))
                 (gain (GAIN_REG x5))).
Proof.
  intros Hc H1 H2 H3 H4 H5 H6. unfold dds_dout_o.
  pose proof (run_nth i [x1; x2; x3; x4; x5; x6] s) as Hn.
  rewrite Hc in Hn. cbn [option_map] in Hn.
  rewrite (datapath_dout_slice _ _ _ Hn).
  destruct (delivered_fields i [x1; x2; x3; x4; x5; x6] s) as [Fr Fg].
  destruct (delivered i [x1; x2; x3; x4; x5; x6] s)
    as [|y1 [|y2 [|y3 [|y4 [|y5 [|y6 [|y7 r]]]]]]]; try discriminate Fr.
  cbn [map] in Fr, Fg.
  injection Fr as R1 R2 R3 R4 R5 R6. injection Fg as _ _ _ _ G5 _.
  rewrite channel_six_ticks by congruence.
  rewrite G5. apply trunc_small; [lia|].
  apply (concat_range 16 _ _ ltac:(lia) 16 ltac:(lia)), q15_scale_range.
Qed.

(** *** The output after a reset *)

Lemma ch_quiet_cleared k c : channel_cleared c -> ch_quiet k c.
Proof.
  intros (Hla & Hre & Him & Hp). repeat split; try assumption.
  intros j Hj _. rewrite Hla.
  destruct j as [|[|[|[|j]]]]; try reflexivity; lia.
Qed.

Lemma ch_quiet_tick k (y : ch_in) c :
  (S k <= 5)%nat -> ch_quiet (S k) c -> ch_quiet k (channel_tick y c).
Proof.
  intros Hk (Hp & Hq & Hla).
  destruct (Hq ltac:(lia)) as [Hre Him].
  unfold ch_quiet. cbn [channel_tick prod_r1 prod_real_r1 prod_imag_r1
                        dds_dout_latency_reg_i].
  split; [|split].
  - unfold prod, prod_real_q, prod_imag_q. rewrite Hre, Him.
    now destruct (c_rstn y).
  - intros Hk1.
    assert (Hout : dds_dout_la c = 0).
    { unfold dds_dout_la, LatencyReg.dout. cbn [Nat.sub].
      rewrite Hla by lia. reflexivity. }
    unfold prod_real, prod_imag, prod_a_real, prod_a_imag. rewrite Hout.
    now destruct (c_rstn y).
  - intros j Hj Hjk. unfold LatencyReg.tick.
    destruct (c_rstn y).
    + rewrite nth_firstn_lt by assumption.
      destruct j as [|j]; [lia|]. cbn [nth]. apply Hla; lia.
    + destruct j as [|[|[|[|j]]]]; try reflexivity; lia.
Qed.

Lemma datapath_quiet_run (ys : list dp_in) : forall k d,
  (length ys + k <= 5)%nat ->
  Forall (ch_quiet (length ys + k)) (GEN_dds d) ->
  Forall (ch_quiet k) (GEN_dds (datapath_run ys d)).
Proof.
  induction ys as [|y r IH]; intros k d Hk H; [exact H|].
  cbn [datapath_run]. cbn [length] in Hk, H. apply IH; [lia|].
  cbn [datapath_tick GEN_dds].
  apply (generate_Forall_impl (ch_quiet (S (length r + k)))); [|exact H].
  intros i c Hc. apply ch_quiet_tick; [lia|exact Hc].
Qed.

(** X2.  After an edge with reset asserted the output bus stays zero for
    the next five edges, whatever the ports and the oscillators do: the
    four latency registers and the product register have to refill before
    the output register can load anything else. *)
Theorem output_quiet_after_reset x xs s :
  rstn x = false -> (length xs <= 5)%nat ->
  dds_dout_o (run xs (tick x s)) = 0.
Proof.
  intros Hx Hlen. unfold dds_dout_o. rewrite regs_run.
  unfold datapath_dout. apply bus_zero, Forall_map.
  assert (Hq : Forall (ch_quiet 0)
                 (GEN_dds (datapath_run (dp_trace xs (tick x s))
                             (regs (tick x s))))).
  { apply datapath_quiet_run; rewrite dp_trace_length; [lia|].
    pose proof (tick_cleared x s Hx) as (_ & _ & Hc).
    eapply Forall_impl; [|exact Hc]. intros c. apply ch_quiet_cleared. }
  eapply Forall_impl; [|exact Hq]. intros c (Hp & _). exact Hp.
Qed.

(** A datapath whose channels all hold a zero output register drives a
    zero bus. *)
Lemma cleared_dout_quiet s :
  Forall (ch_quiet 0) (GEN_dds (regs s)) -> dds_dout_o s = 0.
Proof.
  intros Hq. unfold dds_dout_o, datapath_dout. apply bus_zero, Forall_map.
  eapply Forall_impl; [|exact Hq]. intros c (Hp & _). exact Hp.
Qed.

(** *** Zero gain *)

(** X10.  A zero on [GAIN_REG] at one edge silences the whole output bus
    two edges later, whatever the samples and whatever reset does. *)
Theorem zero_gain_mutes x1 x2 s :
  gain (GAIN_REG x1) = 0 -> dds_dout_o (tick x2 (tick x1 s)) = 0.
Proof.
  intros Hg. unfold dds_dout_o, datapath_dout. apply bus_zero, Forall_map.
  cbn [tick regs datapath_tick GEN_dds].
  apply (generate_Forall_impl
           (fun c => prod_real_r1 c = 0 /\ prod_imag_r1 c = 0)).
  - intros i c [Hre Him]. cbn [channel_tick prod_r1].
    unfold prod, prod_real_q, prod_imag_q. rewrite Hre, Him.
    now destruct (c_rstn _).
  - apply generate_Forall. intros i c.
    cbn [channel_tick prod_real_r1 prod_imag_r1 ch_of c_gain c_rstn dp_of
         d_gain d_rstn].
    unfold prod_real, prod_imag. rewrite Hg, !Z.mul_0_r.
    now destruct (rstn x1).
Qed.

(** *** Uniform replication *)

(** X11.  The generate loop builds every channel alike: two channels
    that hold the same state and read the same reset, gain, valid flag
    and control words show the same word on their slices of the output
    bus; the channel index enters through the control-word slice only. *)
Theorem channel_symmetry s xs i j c :
  nth_error (GEN_dds (regs s)) i = Some c ->
  nth_error (GEN_dds (regs s)) j = Some c ->
  delivered i xs s = delivered j xs s ->
  Bits.slice (dds_dout_o (run xs s)) (Z.of_nat i * 32) 32
  = Bits.slice (dds_dout_o (run xs s)) (Z.of_nat j * 32) 32.
Proof.
  intros Hi Hj Hd. unfold dds_dout_o.
  pose proof (run_nth i xs s) as Ri. rewrite Hi in Ri.
  pose proof (run_nth j xs s) as Rj. rewrite Hj in Rj.
  cbn [option_map] in Ri, Rj.
  rewrite (datapath_dout_slice _ _ _ Ri), (datapath_dout_slice _ _ _ Rj).
  now rewrite Hd.
Qed.

End PipelinePaths.

(** ** Throughput *)

Section Throughput.

Context {PC : PhaseCtrl} {DC : DdsCompiler}.

Implicit Types (c : channel) (d : datapath) (s : dds_top) (x : ports).

Lemma frames_nth xs : forall s k,
  (k < length xs)%nat ->
  nth_error (frames xs s) k = Some (dds_dout_o (run (firstn (S k) xs) s)).
Proof.
  induction xs as [|x r IH]; intros s k Hk; cbn [length] in Hk; [lia|].
  destruct k as [|k]; [reflexivity|].
  cbn [frames nth_error]. rewrite IH by lia. reflexivity.
Qed.

Lemma firstn_window {A} (k n : nat) (l : list A) :
  (k <= length l)%nat ->
  firstn (k + n) l = firstn k l ++ firstn n (skipn k l).
Proof.
  intros Hk. rewrite <- (firstn_skipn k l) at 1.
  replace k with (length (firstn k l)) at 1
    by (rewrite length_firstn; lia).
  apply firstn_app_2.
Qed.

(** The oscillator of a channel takes one step per clock edge. *)
Lemma channel_run_oscillator (ys : list ch_in) : forall c,
  dds_i (channel_run ys c)
  = dds_compiler_0_run (map (fun y => (c_tvalid y, c_tdata y)) ys) (dds_i c).
Proof.
  induction ys as [|y r IH]; intros c; [reflexivity|].
  cbn [channel_run map dds_compiler_0_run]. now rewrite IH.
Qed.

(** Up to five edges after one with reset asserted leave the bus at
    zero. *)
Lemma reset_window_zero x xs s :
  rstn x = false -> (length xs <= 5)%nat ->
  dds_dout_o (run xs (tick x s)) = 0.
Proof.
  intros Hx Hlen. apply cleared_dout_quiet.
  rewrite regs_run. apply datapath_quiet_run; rewrite dp_trace_length; [lia|].
  pose proof (tick_cleared x s Hx) as (_ & _ & Hc).
  eapply Forall_impl; [|exact Hc]. intros c. apply ch_quiet_cleared.
Qed.

(** Six edges with reset released take the oscillator's sample to the
    output word. *)
Lemma released_window_word x1 x2 x3 x4 x5 x6 s i c :
  nth_error (GEN_dds (regs s)) i = Some c ->
  rstn x1 = true -> rstn x2 = true -> rstn x3 = true ->
  rstn x4 = true -> rstn x5 = true -> rstn x6 = true ->
  Bits.slice (dds_dout_o (run [x1; x2; x3; x4; x5; x6] s)) (Z.of_nat i * 32) 32
  = Bits.concat 16
      (q15_scale (Bits.signed 16 (Bits.slice (dds_dout c) 16 16))
                 (gain (GAIN_REG x5)))
      (q15_scale (Bits.signed 16 (Bits.slice (dds_dout c) 0 16))
                 (gain (GAIN_REG x5))).
Proof.
  intros Hc H1 H2 H3 H4 H5 H6. unfold dds_dout_o.
  pose proof (run_nth i [x1; x2; x3; x4; x5; x6] s) as Hn.
  rewrite Hc in Hn. cbn [option_map] in Hn.
  rewrite (datapath_dout_slice _ _ _ Hn).
  destruct (delivered_fields i [x1; x2; x3; x4; x5; x6] s) as [Fr Fg].
  destruct (delivered i [x1; x2; x3; x4; x5; x6] s)
    as [|y1 [|y2 [|y3 [|y4 [|y5 [|y6 [|y7 r]]]]]]]; try discriminate Fr.
  cbn [map] in Fr, Fg.
  injection Fr as R1 R2 R3 R4 R5 R6. injection Fg as _ _ _ _ G5 _.
  rewrite channel_six_ticks by congruence.
  rewrite G5. apply trunc_small; [lia|].
  apply (concat_range 16 _ _ ltac:(lia) 16 ltac:(lia)), q15_scale_range.
Qed.

(** A window of six edges, whatever reset does in it: the word is the
    scaled sample when reset stayed released, and zero otherwise. *)
Lemma window_word x1 x2 x3 x4 x5 x6 s i c :
  nth_error (GEN_dds (regs s)) i = Some c ->
  Bits.slice (dds_dout_o (run [x1; x2; x3; x4; x5; x6] s)) (Z.of_nat i * 32) 32
  = if rstn x1 && rstn x2 && rstn x3 && rstn x4 && rstn x5 && rstn x6
    then Bits.concat 16
           (q15_scale (Bits.signed 16 (Bits.slice (dds_dout c) 16 16))
                      (gain (GAIN_REG x5)))
           (q15_scale (Bits.signed 16 (Bits.slice (dds_dout c) 0 16))
                      (gain (GAIN_REG x5)))
    else 0.
Proof.
  intros Hc.
  destruct (rstn x1) eqn:R1; cbn [andb].
  2:{ change (run [x1; x2; x3; x4; x5; x6] s)
        with (run [x2; x3; x4; x5; x6] (tick x1 s)).
      rewrite reset_window_zero by (cbn [length]; (assumption || lia)).
      apply slice_0. }
  destruct (rstn x2) eqn:R2; cbn [andb].
  2:{ change (run [x1; x2; x3; x4; x5; x6] s)
        with (run [x3; x4; x5; x6] (tick x2 (run [x1] s))).
      rewrite reset_window_zero by (cbn [length]; (assumption || lia)).
      apply slice_0. }
  destruct (rstn x3) eqn:R3; cbn [andb].
  2:{ change (run [x1; x2; x3; x4; x5; x6] s)
        with (run [x4; x5; x6] (tick x3 (run [x1; x2] s))).
      rewrite reset_window_zero by (cbn [length]; (assumption || lia)).
      apply slice_0. }
  destruct (rstn x4) eqn:R4; cbn [andb].
  2:{ change (run [x1; x2; x3; x4; x5; x6] s)
        with (run [x5; x6] (tick x4 (run [x1; x2; x3] s))).
      rewrite reset_window_zero by (cbn [length]; (assumption || lia)).
      apply slice_0. }
  destruct (rstn x5) eqn:R5; cbn [andb].
  2:{ change (run [x1; x2; x3; x4; x5; x6] s)
        with (run [x6] (tick x5 (run [x1; x2; x3; x4] s))).
      rewrite reset_window_zero by (cbn [length]; (assumption || lia)).
      apply slice_0. }
  destruct (rstn x6) eqn:R6.
  2:{ change (run [x1; x2; x3; x4; x5; x6] s)
        with (run [] (tick x6 (run [x1; x2; x3; x4; x5] s))).
      rewrite reset_window_zero by (cbn [length]; (assumption || lia)).
      apply slice_0. }
  now apply released_window_word.
Qed.

(** C4. For every sequence of port values (any reset, increment, gain
    and write enable at each edge) a run yields exactly one frame per
    clock edge, each an [N]-word bus, the frame after edge [k] being the
    output port of the state the first [k+1] edges reach, with [N]
    unchanged.  No frame is held back, skipped or repeated, whatever the
    data: the frame after any six consecutive edges carries, for each
    channel, the oscillator's sample from before the first of them,
    scaled with the gain of the fifth, when reset stayed released over the
    six, and zero otherwise; and every oscillator takes exactly one step
    per edge, on the valid flag and control word registered for it. *)
Theorem one_frame_per_tick xs s :
  length (frames xs s) = length xs
  /\ frames xs s
     = map (fun k => dds_dout_o (run (firstn (S k) xs) s)) (seq 0 (length xs))
  /\ Forall (fun f => 0 <= f < 2 ^ (32 * Z.of_nat (length (GEN_dds (regs s)))))
            (frames xs s)
  /\ length (GEN_dds (regs (run xs s))) = length (GEN_dds (regs s))
  /\ (forall k i c x1 x2 x3 x4 x5 x6,
        firstn 6 (skipn k xs) = [x1; x2; x3; x4; x5; x6] ->
        nth_error (GEN_dds (regs (run (firstn k xs) s))) i = Some c ->
        option_map (fun f => Bits.slice f (Z.of_nat i * 32) 32)
          (nth_error (frames xs s) (k + 5))
        = Some
            (if rstn x1 && rstn x2 && rstn x3 && rstn x4 && rstn x5 && rstn x6
             then Bits.concat 16
                    (q15_scale
                       (Bits.signed 16 (Bits.slice (dds_dout c) 16 16))
                       (gain (GAIN_REG x5)))
                    (q15_scale
                       (Bits.signed 16 (Bits.slice (dds_dout c) 0 16))
                       (gain (GAIN_REG x5)))
             else 0))
  /\ (forall i,
        option_map dds_i (nth_error (GEN_dds (regs (run xs s))) i)
        = option_map
            (fun c =>
               dds_compiler_0_run
                 (map (fun y => (c_tvalid y, c_tdata y)) (delivered i xs s))
                 (dds_i c))
            (nth_error (GEN_dds (regs s)) i)).
Proof.
  split; [apply frames_length|].
  split; [apply frames_spec|].
  split; [apply frames_range|].
  split; [apply run_length|].
  split.
  - intros k i c x1 x2 x3 x4 x5 x6 Hw Hc.
    assert (Hlen : (k + 6 <= length xs)%nat).
    { apply (f_equal (@length ports)) in Hw.
      rewrite length_firstn, length_skipn in Hw. cbn [length] in Hw. lia. }
    rewrite frames_nth by lia. cbn [option_map]. f_equal.
    replace (S (k + 5)) with (k + 6)%nat by lia.
    rewrite firstn_window by lia. rewrite Hw, run_app.
    now apply window_word.
  - intros i. rewrite run_nth.
    destruct (nth_error (GEN_dds (regs s)) i) as [c|]; [|reflexivity].
    cbn [option_map]. now rewrite channel_run_oscillator.
Qed.

End Throughput.

(** ** The reference instance *)

Module RefFacts.
Import Ref.

Lemma view_run (xs : list (bool * Z)) : forall (o : osc) (k : nat),
  (length xs <= k)%nat -> (k <= 9)%nat ->
  nth k (view (@dds_compiler_0_run DC xs o)) 0 = nth (k - length xs) (view o) 0.
Proof.
  induction xs as [|[tv td] r IH]; intros o k Hlen Hk.
  - cbn [length dds_compiler_0_run]. now rewrite Nat.sub_0_r.
  - cbn [length] in Hlen. cbn [dds_compiler_0_run].
    rewrite IH by lia.
    replace (k - length r)%nat with (S (k - S (length r))) by lia.
    cbn [length]. unfold view at 1. cbn [dds_compiler_0_tick DC osc_tick pipe nth].
    rewrite nth_firstn_lt by lia. reflexivity.
Qed.

(** The reference oscillator has the latency the instance comment states. *)
Lemma latency_10 : @dds_latency DC 10.
Proof.
  intros o xs ys Hlen Hlt. cbn [m_axis_data_tdata DC]. unfold osc_out.
  change (nth 8 (pipe ?p) 0) with (nth 9 (view p) 0).
  rewrite !view_run by lia. now rewrite Hlen.
Qed.

(** [Ref.running] is the state the stimulus reaches. *)
Lemma running_reached :
  regs (run (stimulus 20 16384) (power_on 2)) = regs running
  /\ phase_ctrl_i (run (stimulus 20 16384) (power_on 2)) = phase_ctrl_i running.
Proof.
  split.
  - exact (@eq_refl _ (regs running)
           <: regs (run (stimulus 20 16384) (power_on 2)) = regs running).
  - vm_compute. reflexivity.
Qed.

End RefFacts.

(** ** The theorems at work on the reference module *)

(** On the running reference module, two edges with gain one half: the
    real sample -23170 of channel 0 is scaled by truncation. *)
Lemma gain_stage_truncates_witness :
  nth_error (GEN_dds (regs Ref.running)) 0 = Some Ref.running_channel
  /\ rstn (Ref.in_hold 16384) = true
  /\ prod_a_real Ref.running_channel = -23170
  /\ Bits.slice
       (Bits.slice
          (dds_dout_o (tick (Ref.in_hold 16384)
                         (tick (Ref.in_hold 16384) Ref.running)))
          (Z.of_nat 0 * 32) 32)
       0 16
     = q15_scale (prod_a_real Ref.running_channel)
                 (gain (GAIN_REG (Ref.in_hold 16384))).
Proof.
  assert (Hc : nth_error (GEN_dds (regs Ref.running)) 0
               = Some Ref.running_channel) by reflexivity.
  assert (Hx : rstn (Ref.in_hold 16384) = true) by reflexivity.
  split; [exact Hc|]. split; [exact Hx|]. split; [vm_compute; reflexivity|].
  exact (proj1 (proj2 (proj2
    (gain_stage_truncates (Ref.in_hold 16384) (Ref.in_hold 16384) Ref.running
       0%nat Ref.running_channel Hc Hx Hx)))).
Defined.

(** With the most negative gain, the running sample -23170 does not
    wrap and the sample -32768 does. *)
Lemma gain_stage_wrap_corner_witness :
  c_rstn Ref.edge_min_gain = true
  /\ c_gain Ref.edge_min_gain = gain 32768
  /\ gain 32768 = -32768
  /\ ~ (prod_a_real Ref.running_channel = -32768 /\ gain 32768 = -32768)
  /\ Bits.signed 16
       (prod_real_q (channel_tick Ref.edge_min_gain Ref.running_channel))
     = Z.shiftr (prod_a_real Ref.running_channel * gain 32768) 15
  /\ (prod_a_real Ref.corner_channel = -32768 /\ gain 32768 = -32768)
  /\ Bits.signed 16
       (prod_real_q (channel_tick Ref.edge_min_gain Ref.corner_channel))
     = -32768.
Proof.
  assert (Hn : ~ (prod_a_real Ref.running_channel = -32768
                  /\ gain 32768 = -32768)).
  { intros [H _]. vm_compute in H. discriminate H. }
  assert (Hk : prod_a_real Ref.corner_channel = -32768 /\ gain 32768 = -32768)
    by (split; vm_compute; reflexivity).
  split; [reflexivity|]. split; [reflexivity|].
  split; [vm_compute; reflexivity|]. split; [exact Hn|].
  split; [|split; [exact Hk|]].
  - exact (proj1 (proj2 (proj2
      (gain_stage_wrap_corner Ref.edge_min_gain 32768 Ref.running_channel
         eq_refl eq_refl))) Hn).
  - exact (proj1 (proj1
      (gain_stage_wrap_corner Ref.edge_min_gain 32768 Ref.corner_channel
         eq_refl eq_refl) Hk)).
Defined.

(** The word of channel 1 after one edge of the running module. *)
Lemma output_word_packing_witness :
  nth_error (GEN_dds (regs Ref.running)) 1 = Some Ref.running_channel
  /\ Bits.slice (dds_dout_o (tick (Ref.in_hold 16384) Ref.running))
       (Z.of_nat 1 * 32) 32
     = (if rstn (Ref.in_hold 16384)
        then Bits.concat 16 (prod_imag_q Ref.running_channel)
                            (prod_real_q Ref.running_channel)
        else 0).
Proof.
  assert (Hc : nth_error (GEN_dds (regs Ref.running)) 1
               = Some Ref.running_channel) by reflexivity.
  split; [exact Hc|].
  exact (proj1 (proj2
    (output_word_packing (Ref.in_hold 16384) Ref.running 1%nat
       Ref.running_channel Hc))).
Defined.

(** Reset held for two edges on the running module. *)
Lemma reset_clears_module_registers_witness :
  rstn Ref.in_reset = false
  /\ cleared (run ([Ref.in_reset] ++ [Ref.in_reset]) Ref.running)
  /\ dds_dout_o (run ([Ref.in_reset] ++ [Ref.in_reset]) Ref.running) = 0.
Proof.
  assert (Hx : rstn Ref.in_reset = false) by reflexivity.
  split; [exact Hx|].
  destruct (reset_clears_module_registers [Ref.in_reset] Ref.in_reset
              (Ref.in_hold 0) Ref.running Hx) as (H1 & H2 & _).
  split; [exact H1|exact H2].
Defined.

(** Three cycles after a reset of the running module. *)
Lemma tvalid_after_release_witness :
  rstn Ref.in_reset = false
  /\ Forall (fun y => rstn y = true) (repeat (Ref.in_hold 16384) 3)
  /\ dds_tvalid_r
       (regs (run (repeat (Ref.in_hold 16384) 3)
                (tick Ref.in_reset Ref.running)))
     = negb (Nat.eqb (length (repeat (Ref.in_hold 16384) 3)) 0)
  /\ map c_tvalid
       (delivered 0 (repeat (Ref.in_hold 16384) 3)
          (tick Ref.in_reset Ref.running))
     = firstn (length (repeat (Ref.in_hold 16384) 3))
         (false :: repeat true (length (repeat (Ref.in_hold 16384) 3))).
Proof.
  assert (Hx : rstn Ref.in_reset = false) by reflexivity.
  assert (Hall : Forall (fun y => rstn y = true) (repeat (Ref.in_hold 16384) 3))
    by (repeat constructor).
  split; [exact Hx|]. split; [exact Hall|].
  exact (tvalid_after_release Ref.in_reset (repeat (Ref.in_hold 16384) 3)
           Ref.running 0%nat Hx Hall).
Defined.

(** Twenty cycles after a reset of the power-on module. *)
Lemma latency_aligner_delays_witness :
  rstn Ref.in_reset = false
  /\ Forall (fun y => rstn y = true) Ref.fill
  /\ (0 < length (GEN_dds (regs (Ref.power_on 2))))%nat
  /\ option_map dds_dout_la
       (nth_error
          (GEN_dds (regs (run Ref.fill (tick Ref.in_reset (Ref.power_on 2))))) 0)
     = if (length Ref.fill <? 4)%nat then Some 0
       else option_map dds_dout
              (nth_error
                 (GEN_dds
                    (regs (run (firstn (length Ref.fill - 4) Ref.fill)
                             (tick Ref.in_reset (Ref.power_on 2))))) 0).
Proof.
  assert (Hx : rstn Ref.in_reset = false) by reflexivity.
  assert (Hall : Forall (fun y => rstn y = true) Ref.fill)
    by (repeat constructor).
  assert (Hi : (0 < length (GEN_dds (regs (Ref.power_on 2))))%nat)
    by (cbn; lia).
  split; [exact Hx|]. split; [exact Hall|]. split; [exact Hi|].
  exact (latency_aligner_delays Ref.in_reset Ref.fill (Ref.power_on 2) 0%nat
           Hx Hall Hi).
Defined.

(** Channel 0 of [Ref.running] and of [Ref.other] over two edges: the
    buses differ, the slices of channel 0 do not. *)
Lemma channel_independence_witness :
  nth_error (GEN_dds (regs Ref.running)) 0 = Some Ref.running_channel
  /\ nth_error (GEN_dds (regs Ref.other)) 0 = Some Ref.running_channel
  /\ delivered 0 (repeat (Ref.in_hold 16384) 2) Ref.running
     = delivered 0 (repeat (Ref.in_hold 16384) 2) Ref.other
  /\ dds_dout_o (run (repeat (Ref.in_hold 16384) 2) Ref.running)
     <> dds_dout_o (run (repeat (Ref.in_hold 16384) 2) Ref.other)
  /\ Bits.slice (dds_dout_o (run (repeat (Ref.in_hold 16384) 2) Ref.running))
       (Z.of_nat 0 * 32) 32
     = Bits.slice (dds_dout_o (run (repeat (Ref.in_hold 16384) 2) Ref.other))
         (Z.of_nat 0 * 32) 32.
Proof.
  assert (H1 : nth_error (GEN_dds (regs Ref.running)) 0
               = Some Ref.running_channel) by reflexivity.
  assert (H2 : nth_error (GEN_dds (regs Ref.other)) 0
               = Some Ref.running_channel) by reflexivity.
  assert (Hd : delivered 0 (repeat (Ref.in_hold 16384) 2) Ref.running
               = delivered 0 (repeat (Ref.in_hold 16384) 2) Ref.other)
    by (vm_compute; reflexivity).
  split; [exact H1|]. split; [exact H2|]. split; [exact Hd|].
  split; [vm_compute; discriminate|].
  exact (channel_independence Ref.running Ref.other
           (repeat (Ref.in_hold 16384) 2) (repeat (Ref.in_hold 16384) 2)
           0%nat Ref.running_channel H1 H2 Hd).
Defined.

(** A second write at cycle 7 changes [dds_ctrl_int] from cycle 8 on and
    leaves the output port at cycle 22 as it was. *)
Lemma change_latency_witness :
  @dds_latency Ref.DC 10
  /\ map d_rstn (dp_trace (Ref.stimulus 20 16384) (Ref.power_on 2))
     = map d_rstn (dp_trace (Ref.rewrite_at_7 14) (Ref.power_on 2))
  /\ firstn 22 (map d_gain (dp_trace (Ref.stimulus 20 16384) (Ref.power_on 2)))
     = firstn 22 (map d_gain (dp_trace (Ref.rewrite_at_7 14) (Ref.power_on 2)))
  /\ firstn 8
       (map d_ctrl_int (dp_trace (Ref.stimulus 20 16384) (Ref.power_on 2)))
     = firstn 8
         (map d_ctrl_int (dp_trace (Ref.rewrite_at_7 14) (Ref.power_on 2)))
  /\ nth 8 (map d_ctrl_int (dp_trace (Ref.stimulus 20 16384) (Ref.power_on 2))) 0
     <> nth 8 (map d_ctrl_int (dp_trace (Ref.rewrite_at_7 14) (Ref.power_on 2))) 0
  /\ (length (Ref.stimulus 20 16384) <= 22 + 1)%nat
  /\ (length (Ref.stimulus 20 16384) <= 8 + 16)%nat
  /\ dds_dout_o (run (Ref.stimulus 20 16384) (Ref.power_on 2))
     = dds_dout_o (run (Ref.rewrite_at_7 14) (Ref.power_on 2)).
Proof.
  assert (Hr : map d_rstn (dp_trace (Ref.stimulus 20 16384) (Ref.power_on 2))
               = map d_rstn (dp_trace (Ref.rewrite_at_7 14) (Ref.power_on 2)))
    by (vm_compute; reflexivity).
  assert (Hg : firstn 22
                 (map d_gain (dp_trace (Ref.stimulus 20 16384) (Ref.power_on 2)))
               = firstn 22
                   (map d_gain (dp_trace (Ref.rewrite_at_7 14) (Ref.power_on 2))))
    by (vm_compute; reflexivity).
  assert (Hc : firstn 8
                 (map d_ctrl_int
                    (dp_trace (Ref.stimulus 20 16384) (Ref.power_on 2)))
               = firstn 8
                   (map d_ctrl_int
                      (dp_trace (Ref.rewrite_at_7 14) (Ref.power_on 2))))
    by (vm_compute; reflexivity).
  assert (Hlg : (length (Ref.stimulus 20 16384) <= 22 + 1)%nat)
    by (vm_compute; lia).
  assert (Hlc : (length (Ref.stimulus 20 16384) <= 8 + 16)%nat)
    by (vm_compute; lia).
  split; [exact RefFacts.latency_10|]. split; [exact Hr|]. split; [exact Hg|].
  split; [exact Hc|]. split; [vm_compute; discriminate|].
  split; [exact Hlg|]. split; [exact Hlc|].
  exact (change_latency (Ref.power_on 2) (Ref.power_on 2)
           (Ref.stimulus 20 16384) (Ref.rewrite_at_7 14) 22 8
           RefFacts.latency_10 eq_refl Hr Hg Hc Hlg Hlc).
Defined.

(** The bound of 17 cycles on a control word is tight: the second write
    of [Ref.rewrite_at_7] reaches [dds_ctrl_int] at cycle 8 and the output
    port at cycle 25, not before. *)
Lemma ctrl_change_shows_at_seventeen :
  dds_dout_o (run (Ref.stimulus 22 16384) (Ref.power_on 2))
  = dds_dout_o (run (Ref.rewrite_at_7 16) (Ref.power_on 2))
  /\ dds_dout_o (run (Ref.stimulus 23 16384) (Ref.power_on 2))
     <> dds_dout_o (run (Ref.rewrite_at_7 17) (Ref.power_on 2)).
Proof. split; vm_compute; [reflexivity|discriminate]. Qed.

(** C2 as stated fails for the gain.  The two port sequences differ in
    [GAIN_REG] at cycle 22 and nowhere else, and the output port differs
    at cycle 24: the gain takes the two product and output registers to
    show, not the 16 or 17 cycles of a control word. *)
Lemma gain_change_shows_at_two :
  map rstn Ref.gain_kept = map rstn Ref.gain_dropped
  /\ map PINC_REG Ref.gain_kept = map PINC_REG Ref.gain_dropped
  /\ map WE_REG Ref.gain_kept = map WE_REG Ref.gain_dropped
  /\ firstn 22 Ref.gain_kept = firstn 22 Ref.gain_dropped
  /\ skipn 23 Ref.gain_kept = skipn 23 Ref.gain_dropped
  /\ length Ref.gain_kept = (22 + 2)%nat
  /\ dds_dout_o (run Ref.gain_kept (Ref.power_on 2)) = 3261119323732824767
  /\ dds_dout_o (run Ref.gain_dropped (Ref.power_on 2)) = 0
  /\ dds_dout_o (run Ref.gain_kept (Ref.power_on 2))
     <> dds_dout_o (run Ref.gain_dropped (Ref.power_on 2)).
Proof. repeat split; vm_compute; (reflexivity || discriminate). Qed.

(** C3 as stated fails for the oscillators.  One edge with reset asserted
    on the running reference module leaves channel 0's oscillator with a
    non-zero accumulator and non-zero output registers: it stepped as on
    any other edge. *)
Lemma reset_leaves_oscillator_state :
  rstn Ref.in_reset = false
  /\ dds_dout_o (tick Ref.in_reset Ref.running) = 0
  /\ option_map dds_i (nth_error (GEN_dds (regs (tick Ref.in_reset Ref.running))) 0)
     = Some {| Ref.acc := 1073741824;
               Ref.pipe := [1983983867; 1518492290; 821786177; 32767;
                            3473241665; 2776521346; 2311008507; 2147549184;
                            2311048965] |}
  /\ option_map dds_i (nth_error (GEN_dds (regs (tick Ref.in_reset Ref.running))) 0)
     <> Some {| Ref.acc := 0; Ref.pipe := repeat 0 9 |}.
Proof. repeat split; vm_compute; (reflexivity || discriminate). Qed.

(** ** The further properties at work on the reference module *)

(** Six edges of the running module with gain one half. *)
Lemma oscillator_to_output_witness :
  nth_error (GEN_dds (regs Ref.running)) 0 = Some Ref.running_channel
  /\ rstn (Ref.in_hold 16384) = true
  /\ Bits.slice
       (dds_dout_o
          (run [Ref.in_hold 16384; Ref.in_hold 16384; Ref.in_hold 16384;
                Ref.in_hold 16384; Ref.in_hold 16384; Ref.in_hold 16384]
             Ref.running))
       (Z.of_nat 0 * 32) 32
     = Bits.concat 16
         (q15_scale
            (Bits.signed 16 (Bits.slice (dds_dout Ref.running_channel) 16 16))
            (gain (GAIN_REG (Ref.in_hold 16384))))
         (q15_scale
            (Bits.signed 16 (Bits.slice (dds_dout Ref.running_channel) 0 16))
            (gain (GAIN_REG (Ref.in_hold 16384)))).
Proof.
  assert (Hc : nth_error (GEN_dds (regs Ref.running)) 0
               = Some Ref.running_channel) by reflexivity.
  assert (Hx : rstn (Ref.in_hold 16384) = true) by reflexivity.
  split; [exact Hc|]. split; [exact Hx|].
  exact (oscillator_to_output (Ref.in_hold 16384) (Ref.in_hold 16384)
           (Ref.in_hold 16384) (Ref.in_hold 16384) (Ref.in_hold 16384)
           (Ref.in_hold 16384) Ref.running 0%nat Ref.running_channel
           Hc Hx Hx Hx Hx Hx Hx).
Defined.

(** A reset of the running module: five edges of silence, and a word
    again at the sixth. *)
Lemma output_quiet_after_reset_witness :
  rstn Ref.in_reset = false
  /\ (length (repeat (Ref.in_hold 16384) 5) <= 5)%nat
  /\ dds_dout_o (run (repeat (Ref.in_hold 16384) 6)
                   (tick Ref.in_reset Ref.running)) <> 0
  /\ dds_dout_o (run (repeat (Ref.in_hold 16384) 5)
                   (tick Ref.in_reset Ref.running)) = 0.
Proof.
  assert (Hx : rstn Ref.in_reset = false) by reflexivity.
  assert (Hl : (length (repeat (Ref.in_hold 16384) 5) <= 5)%nat)
    by (cbn; lia).
  split; [exact Hx|]. split; [exact Hl|]. split; [vm_compute; discriminate|].
  exact (output_quiet_after_reset Ref.in_reset (repeat (Ref.in_hold 16384) 5)
           Ref.running Hx Hl).
Defined.

(** A write on the running module: what channel 1 reads next. *)
Lemma control_word_delivery_witness :
  (1 < length (GEN_dds (regs Ref.running)))%nat
  /\ c_tdata (ch_of {| d_rstn := true; d_gain := 0; d_ctrl_int := 0 |}
                (regs (tick (Ref.in_write (2 ^ 27) 16384) Ref.running)) 1)
     = (if rstn (Ref.in_write (2 ^ 27) 16384)
        then Bits.slice
               (dds_ctrl_o (rstn (Ref.in_write (2 ^ 27) 16384))
                  (PINC_REG (Ref.in_write (2 ^ 27) 16384))
                  (WE_REG (Ref.in_write (2 ^ 27) 16384))
                  (phase_ctrl_i Ref.running))
               (Z.of_nat 1 * 72) 72
        else 0).
Proof.
  assert (Hi : (1 < length (GEN_dds (regs Ref.running)))%nat) by (cbn; lia).
  split; [exact Hi|].
  exact (proj1 (control_word_delivery (Ref.in_write (2 ^ 27) 16384)
                  {| d_rstn := true; d_gain := 0; d_ctrl_int := 0 |}
                  Ref.running 1%nat Hi)).
Defined.

(** The running sample under gain one half keeps bit 31 equal to bit 30. *)
Lemma product_is_exact_witness :
  ~ (prod_a_real Ref.running_channel = -32768 /\ gain 16384 = -32768)
  /\ Z.testbit (prod_real (gain 16384) Ref.running_channel) 31
     = Z.testbit (prod_real (gain 16384) Ref.running_channel) 30.
Proof.
  assert (Hn : ~ (prod_a_real Ref.running_channel = -32768
                  /\ gain 16384 = -32768)).
  { intros [H _]. vm_compute in H. discriminate H. }
  split; [exact Hn|].
  exact (proj1 (proj2 (proj2 (product_is_exact 16384 Ref.running_channel))) Hn).
Defined.

(** The running sample under gain one half does not grow. *)
Lemma gain_stage_never_amplifies_witness :
  c_rstn (Ref.edge 16384) = true
  /\ c_gain (Ref.edge 16384) = gain 16384
  /\ ~ (prod_a_real Ref.running_channel = -32768 /\ gain 16384 = -32768)
  /\ Z.abs (Bits.signed 16
              (prod_real_q (channel_tick (Ref.edge 16384) Ref.running_channel)))
     <= Z.abs (prod_a_real Ref.running_channel).
Proof.
  assert (Hn : ~ (prod_a_real Ref.running_channel = -32768
                  /\ gain 16384 = -32768)).
  { intros [H _]. vm_compute in H. discriminate H. }
  split; [reflexivity|]. split; [reflexivity|]. split; [exact Hn|].
  exact (proj1 (gain_stage_never_amplifies (Ref.edge 16384) 16384
                  Ref.running_channel eq_refl eq_refl) Hn).
Defined.

(** The running sample -23170 under gain -32768 comes out as 23170. *)
Lemma gain_minus_one_negates_witness :
  c_rstn (Ref.edge 32768) = true
  /\ c_gain (Ref.edge 32768) = gain 32768
  /\ gain 32768 = -32768
  /\ prod_a_real Ref.running_channel <> -32768
  /\ Bits.signed 16
       (prod_real_q (channel_tick (Ref.edge 32768) Ref.running_channel))
     = - prod_a_real Ref.running_channel.
Proof.
  assert (Hg : gain 32768 = -32768) by (vm_compute; reflexivity).
  assert (Hn : prod_a_real Ref.running_channel <> -32768)
    by (vm_compute; discriminate).
  split; [reflexivity|]. split; [reflexivity|]. split; [exact Hg|].
  split; [exact Hn|].
  exact (proj1 (gain_minus_one_negates (Ref.edge 32768) 32768
                  Ref.running_channel eq_refl eq_refl Hg) Hn).
Defined.

(** The running samples under the largest gain. *)
Lemma gain_full_scale_loses_one_witness :
  c_rstn (Ref.edge 32767) = true
  /\ c_gain (Ref.edge 32767) = gain 32767
  /\ gain 32767 = 32767
  /\ Bits.signed 16
       (prod_imag_q (channel_tick (Ref.edge 32767) Ref.running_channel))
     = (if 0 <? prod_a_imag Ref.running_channel
        then prod_a_imag Ref.running_channel - 1
        else if prod_a_imag Ref.running_channel =? -32768
             then prod_a_imag Ref.running_channel + 1
             else prod_a_imag Ref.running_channel).
Proof.
  assert (Hg : gain 32767 = 32767) by (vm_compute; reflexivity).
  split; [reflexivity|]. split; [reflexivity|]. split; [exact Hg|].
  exact (proj2 (gain_full_scale_loses_one (Ref.edge 32767) 32767
                  Ref.running_channel eq_refl eq_refl Hg)).
Defined.

(** Gain one half is a shift by one bit. *)
Lemma gain_power_of_two_shifts_witness :
  c_rstn (Ref.edge 16384) = true
  /\ c_gain (Ref.edge 16384) = gain 16384
  /\ 0 <= 14 <= 14
  /\ gain 16384 = 2 ^ 14
  /\ Bits.signed 16
       (prod_real_q (channel_tick (Ref.edge 16384) Ref.running_channel))
     = Z.shiftr (prod_a_real Ref.running_channel) (15 - 14).
Proof.
  assert (Hk : 0 <= 14 <= 14) by lia.
  assert (Hg : gain 16384 = 2 ^ 14) by (vm_compute; reflexivity).
  split; [reflexivity|]. split; [reflexivity|]. split; [exact Hk|].
  split; [exact Hg|].
  exact (proj1 (gain_power_of_two_shifts (Ref.edge 16384) 16384
                  Ref.running_channel 14 eq_refl eq_refl Hk Hg)).
Defined.

(** The running sample -23170 and the zero sample under gain one half. *)
Lemma gain_stage_monotone_witness :
  c_rstn (Ref.edge 16384) = true
  /\ c_gain (Ref.edge 16384) = gain 16384
  /\ 0 <= gain 16384
  /\ prod_a_real Ref.running_channel <= prod_a_real Ref.channel0
  /\ Bits.signed 16
       (prod_real_q (channel_tick (Ref.edge 16384) Ref.running_channel))
     <= Bits.signed 16
          (prod_real_q (channel_tick (Ref.edge 16384) Ref.channel0)).
Proof.
  assert (Hp : 0 <= gain 16384) by (vm_compute; discriminate).
  assert (Hle : prod_a_real Ref.running_channel <= prod_a_real Ref.channel0)
    by (vm_compute; discriminate).
  split; [reflexivity|]. split; [reflexivity|]. split; [exact Hp|].
  split; [exact Hle|].
  exact (proj1 (gain_stage_monotone (Ref.edge 16384) 16384
                  Ref.running_channel Ref.channel0 eq_refl eq_refl Hp) Hle).
Defined.

(** A zero gain on the running module. *)
Lemma zero_gain_mutes_witness :
  gain (GAIN_REG (Ref.in_hold 0)) = 0
  /\ dds_dout_o (tick (Ref.in_hold 16384) Ref.running) <> 0
  /\ dds_dout_o (tick (Ref.in_hold 16384) (tick (Ref.in_hold 0) Ref.running))
     = 0.
Proof.
  assert (Hg : gain (GAIN_REG (Ref.in_hold 0)) = 0) by (vm_compute; reflexivity).
  split; [exact Hg|]. split; [vm_compute; discriminate|].
  exact (zero_gain_mutes (Ref.in_hold 0) (Ref.in_hold 16384) Ref.running Hg).
Defined.

(** The two channels of the running module over six edges. *)
Lemma channel_symmetry_witness :
  nth_error (GEN_dds (regs Ref.running)) 0 = Some Ref.running_channel
  /\ nth_error (GEN_dds (regs Ref.running)) 1 = Some Ref.running_channel
  /\ delivered 0 (repeat (Ref.in_hold 16384) 6) Ref.running
     = delivered 1 (repeat (Ref.in_hold 16384) 6) Ref.running
  /\ Bits.slice (dds_dout_o (run (repeat (Ref.in_hold 16384) 6) Ref.running))
       (Z.of_nat 0 * 32) 32
     = Bits.slice (dds_dout_o (run (repeat (Ref.in_hold 16384) 6) Ref.running))
         (Z.of_nat 1 * 32) 32.
Proof.
  assert (H0 : nth_error (GEN_dds (regs Ref.running)) 0
               = Some Ref.running_channel) by reflexivity.
  assert (H1 : nth_error (GEN_dds (regs Ref.running)) 1
               = Some Ref.running_channel) by reflexivity.
  assert (Hd : delivered 0 (repeat (Ref.in_hold 16384) 6) Ref.running
               = delivered 1 (repeat (Ref.in_hold 16384) 6) Ref.running)
    by (vm_compute; reflexivity).
  split; [exact H0|]. split; [exact H1|]. split; [exact Hd|].
  exact (channel_symmetry Ref.running (repeat (Ref.in_hold 16384) 6)
           0%nat 1%nat Ref.running_channel H0 H1 Hd).
Defined.

(** Seven edges of the running module: the sixth frame carries channel
    1's sample of the start; with reset asserted at the third edge the
    sixth frame is zero. *)
Lemma one_frame_per_tick_witness :
  firstn 6 (skipn 0 (repeat (Ref.in_hold 16384) 7))
  = [Ref.in_hold 16384; Ref.in_hold 16384; Ref.in_hold 16384;
     Ref.in_hold 16384; Ref.in_hold 16384; Ref.in_hold 16384]
  /\ nth_error
       (GEN_dds
          (regs (run (firstn 0 (repeat (Ref.in_hold 16384) 7)) Ref.running))) 1
     = Some Ref.running_channel
  /\ nth_error (frames (repeat (Ref.in_hold 16384) 7) Ref.running) (0 + 5)
     <> Some 0
  /\ option_map (fun f => Bits.slice f (Z.of_nat 1 * 32) 32)
       (nth_error (frames (repeat (Ref.in_hold 16384) 7) Ref.running) (0 + 5))
     = Some
         (if rstn (Ref.in_hold 16384) && rstn (Ref.in_hold 16384)
             && rstn (Ref.in_hold 16384) && rstn (Ref.in_hold 16384)
             && rstn (Ref.in_hold 16384) && rstn (Ref.in_hold 16384)
          then Bits.concat 16
                 (q15_scale
                    (Bits.signed 16
                       (Bits.slice (dds_dout Ref.running_channel) 16 16))
                    (gain (GAIN_REG (Ref.in_hold 16384))))
                 (q15_scale
                    (Bits.signed 16
                       (Bits.slice (dds_dout Ref.running_channel) 0 16))
                    (gain (GAIN_REG (Ref.in_hold 16384))))
          else 0)
  /\ option_map (fun f => Bits.slice f (Z.of_nat 1 * 32) 32)
       (nth_error
          (frames
             [Ref.in_hold 16384; Ref.in_hold 16384; Ref.in_reset;
              Ref.in_hold 16384; Ref.in_hold 16384; Ref.in_hold 16384]
             Ref.running) (0 + 5))
     = Some
         (if rstn (Ref.in_hold 16384) && rstn (Ref.in_hold 16384)
             && rstn Ref.in_reset && rstn (Ref.in_hold 16384)
             && rstn (Ref.in_hold 16384) && rstn (Ref.in_hold 16384)
          then Bits.concat 16
                 (q15_scale
                    (Bits.signed 16
                       (Bits.slice (dds_dout Ref.running_channel) 16 16))
                    (gain (GAIN_REG (Ref.in_hold 16384))))
                 (q15_scale
                    (Bits.signed 16
                       (Bits.slice (dds_dout Ref.running_channel) 0 16))
                    (gain (GAIN_REG (Ref.in_hold 16384))))
          else 0).
Proof.
  assert (Hw : firstn 6 (skipn 0 (repeat (Ref.in_hold 16384) 7))
               = [Ref.in_hold 16384; Ref.in_hold 16384; Ref.in_hold 16384;
                  Ref.in_hold 16384; Ref.in_hold 16384; Ref.in_hold 16384])
    by reflexivity.
  assert (Hc : nth_error
                 (GEN_dds
                    (regs (run (firstn 0 (repeat (Ref.in_hold 16384) 7))
                             Ref.running))) 1
               = Some Ref.running_channel) by reflexivity.
  split; [exact Hw|]. split; [exact Hc|]. split; [vm_compute; discriminate|].
  split.
  - exact (proj1 (proj2 (proj2 (proj2 (proj2
      (one_frame_per_tick (repeat (Ref.in_hold 16384) 7) Ref.running)))))
      0%nat 1%nat Ref.running_channel _ _ _ _ _ _ Hw Hc).
  - exact (proj1 (proj2 (proj2 (proj2 (proj2
      (one_frame_per_tick
         [Ref.in_hold 16384; Ref.in_hold 16384; Ref.in_reset;
          Ref.in_hold 16384; Ref.in_hold 16384; Ref.in_hold 16384]
         Ref.running)))))
      0%nat 1%nat Ref.running_channel _ _ _ _ _ _ eq_refl eq_refl).
Defined.
